(** * School management database layer

    A shallow embedding of the [Database] class of [pyqt.py] and [tkinter.py]
    (the two files carry the same class, up to the dialog toolkit), with the
    properties of its operations.

    Layout: the fragment of Python's [re] that [validate_email] uses; the
    integers SQLite stores, the tables and the statements the class issues;
    the methods of [Database], written in a small state/log/exception monad;
    one handler of the [tkinter.py] window; then the lemmas. *)

From Stdlib Require Import ZArith List String Ascii Bool Lia DecimalString.
From Stdlib Require Import Sorted Eqdep_dec.
Import ListNotations.

Local Open Scope Z_scope.

(* ================================================================== *)
(** ** The regular expressions of [validate_email] *)
(* ================================================================== *)

Module Regex.

(** Python strings are sequences of code points.  A string is modelled by
    the bytes of its UTF-8 encoding: the pattern below names ASCII
    characters only, and every byte of a non-ASCII code point is above 127,
    so such a code point is outside every class and different from every
    literal, both in Python and here. *)
Definition chars (s : string) : list ascii := list_ascii_of_string s.

(** One member of a bracket expression: a range [a-z] or a single
    character. *)
Inductive member : Type :=
| Range (lo hi : ascii)
| Single (c : ascii).

Definition charset : Type := list member.

Definition in_member (c : ascii) (m : member) : bool :=
  match m with
  | Range lo hi => Ascii.leb lo c && Ascii.leb c hi
  | Single d => Ascii.eqb c d
  end.

Definition in_charset (cs : charset) (c : ascii) : bool :=
  existsb (in_member c) cs.

(** The pattern items that occur in the source: [^], [$], an escaped or
    plain literal, and a greedy repetition [[...]{lo,}] of a bracket
    expression ([+] is [{1,}]). *)
Inductive item : Type :=
| Bol
| Eol
| Lit (c : ascii)
| Rep (cs : charset) (lo : nat).

Definition pattern : Type := list item.

Definition newline : ascii := "010"%char.

(** [$] without [re.MULTILINE]: at the end of the string, or just before a
    newline that is the last character of the string. *)
Definition at_end (rest : list ascii) : bool :=
  match rest with
  | [] => true
  | [c] => Ascii.eqb c newline
  | _ => false
  end.

(** Greedy repetition with backtracking: take one more character of the
    class when there is one, and fall back to the continuation [k] once
    [lo] characters have been taken.  [pos] counts the characters consumed
    so far. *)
Fixpoint rep (cs : charset) (k : nat -> list ascii -> bool)
         (lo : nat) (pos : nat) (s : list ascii) : bool :=
  match s with
  | c :: s' =>
      (in_charset cs c && rep cs k (Nat.pred lo) (S pos) s')
      || (Nat.eqb lo 0 && k pos s)
  | [] => Nat.eqb lo 0 && k pos s
  end.

(** The backtracking matcher: does [p] match a prefix of [s], which starts
    at offset [pos] of the subject string? *)
Fixpoint match_here (p : pattern) (pos : nat) (s : list ascii) : bool :=
  match p with
  | [] => true
  | Bol :: p' => Nat.eqb pos 0 && match_here p' pos s
  | Eol :: p' => at_end s && match_here p' pos s
  | Lit c :: p' =>
      match s with
      | d :: s' => Ascii.eqb d c && match_here p' (S pos) s'
      | [] => false
      end
  | Rep cs lo :: p' => rep cs (match_here p') lo pos s
  end.

(** [re.match(p, s) is not None]: the match is attempted at offset 0
    only. *)
Definition re_match (p : pattern) (s : string) : bool :=
  match_here p 0%nat (chars s).

End Regex.

Import Regex.

(** [[a-zA-Z0-9._%+-]] *)
Definition local_chars : charset :=
  [Range "a" "z"; Range "A" "Z"; Range "0" "9";
   Single "."; Single "_"; Single "%"; Single "+"; Single "-"]%char.

(** [[a-zA-Z0-9.-]] *)
Definition domain_chars : charset :=
  [Range "a" "z"; Range "A" "Z"; Range "0" "9"; Single "."; Single "-"]%char.

(** [[a-zA-Z]] *)
Definition letters : charset := [Range "a" "z"; Range "A" "Z"]%char.

(** [r'^[a-zA-Z0-9._%+-]+@[a-zA-Z0-9.-]+\.[a-zA-Z]{2,}$'] *)
Definition regex : pattern :=
  [Bol; Rep local_chars 1; Lit "@"; Rep domain_chars 1; Lit ".";
   Rep letters 2; Eol]%char.

(** [Database.validate_email] *)
Definition validate_email (email : string) : bool := re_match regex email.

(** The shape of an address as the specification words it: a non-empty local
    part, [@], a non-empty domain part, a dot, two or more ASCII letters, and
    nothing else. *)
Definition email_shape (e : list ascii) : Prop :=
  exists l d t : list ascii,
    e = l ++ "@"%char :: d ++ "."%char :: t
    /\ (1 <= List.length l)%nat /\ forallb (in_charset local_chars) l = true
    /\ (1 <= List.length d)%nat /\ forallb (in_charset domain_chars) d = true
    /\ (2 <= List.length t)%nat /\ forallb (in_charset letters) t = true.

(* ================================================================== *)
(** ** The integers of SQLite *)
(* ================================================================== *)

(** A Python [int] is unbounded and is modelled by [Z].  SQLite stores
    signed 64-bit integers: when [cursor.execute] binds an [int] outside that
    range, [sqlite3] raises [OverflowError] and the statement does not
    run. *)
Definition min_int64 : Z := - 2 ^ 63.
Definition max_int64 : Z := 2 ^ 63 - 1.

Definition fits (n : Z) : bool := (min_int64 <=? n) && (n <=? max_int64).

(** An INTEGER as a table holds it. *)
Record int64 : Type := { value :> Z; in_range : fits value = true }.

Definition fits_dec (n : Z) : {fits n = true} + {fits n = false} :=
  match fits n as b return {b = true} + {b = false} with
  | true => left eq_refl
  | false => right eq_refl
  end.

(** The stored form of an [int] that fits (and zero for one that does not:
    the methods below bind before they store, so that case never runs). *)
Definition i64 (n : Z) : int64 :=
  match fits_dec n with
  | left H => {| value := n; in_range := H |}
  | right _ => {| value := 0; in_range := eq_refl |}
  end.

(* ================================================================== *)
(** ** The tables of [school1.db] *)
(* ================================================================== *)

(** TEXT values are modelled by [string].  The schema declares foreign keys,
    but the connection never issues [PRAGMA foreign_keys = ON], so SQLite
    does not enforce them: only PRIMARY KEY and NOT NULL are in force. *)

Module Students.
Record row : Type :=
  { student_id : int64; name : string; age : int64; email : string }.
End Students.

Module Instructors.
Record row : Type :=
  { instructor_id : int64; name : string; age : int64; email : string }.
End Instructors.

Module Courses.
(** [instructor_id INTEGER] has no NOT NULL: the column is nullable. *)
Record row : Type :=
  { course_id : int64; course_name : string; instructor_id : option int64 }.
End Courses.

Module StudentCourses.
(** Neither column is declared NOT NULL, and in a table that keeps its rowid
    SQLite lets NULL into the columns of a composite PRIMARY KEY. *)
Record row : Type :=
  { student_id : option int64; course_id : option int64 }.

(** Two rows collide on [PRIMARY KEY (student_id, course_id)] when they agree
    on both columns and neither holds NULL: a NULL is distinct from every
    value, another NULL included. *)
Definition collide (a b : row) : bool :=
  match student_id a, course_id a, student_id b, course_id b with
  | Some s1, Some c1, Some s2, Some c2 => (s1 =? s2) && (c1 =? c2)
  | _, _, _, _ => false
  end.
End StudentCourses.

(** The contents of the database file as the single connection sees them.
    A table is the list of its rows in rowid order, which is the order in
    which [SELECT *] returns them.  The [seq_] fields are the rows of
    [sqlite_sequence], which SQLite keeps for AUTOINCREMENT keys. *)
Record Database : Type :=
  { students : list Students.row;
    instructors : list Instructors.row;
    courses : list Courses.row;
    student_courses : list StudentCourses.row;
    seq_students : int64;
    seq_instructors : int64;
    seq_courses : int64 }.

(** The database that [Database.__init__] finds on a fresh file once
    [create_tables] has run: four empty tables. *)
Definition empty_db : Database :=
  {| students := []; instructors := []; courses := []; student_courses := [];
     seq_students := i64 0; seq_instructors := i64 0; seq_courses := i64 0 |}.

(** The classes [Student], [Instructor] and [Course]. *)
Module Student.
Record t : Type := { name : string; age : Z; email : string }.
End Student.

Module Instructor.
Record t : Type := { name : string; age : Z; email : string }.
End Instructor.

Module Course.
Record t : Type := { course_name : string; instructor_id : Z }.
End Course.

(* ------------------------------------------------------------------ *)
(** *** Statements *)

(** What a statement that writes leaves: the new tables, or the exception
    with which SQLite rejects it, the tables staying as they were. *)
Inductive exn : Type :=
| IntegrityError
| AttributeError
| OverflowError
| OperationalError.

Inductive result (A : Type) : Type :=
| Return (a : A)
| Raise (e : exn).

Arguments Return {A} a.
Arguments Raise {A} e.

(** AUTOINCREMENT: one more than the largest rowid the table has ever
    held. *)
Definition next_rowid (seq : Z) (ids : list Z) : Z :=
  fold_right Z.max seq ids + 1.

Definition student_ids (d : Database) : list Z :=
  map (fun r => value (Students.student_id r)) (students d).

Definition instructor_ids (d : Database) : list Z :=
  map (fun r => value (Instructors.instructor_id r)) (instructors d).

Definition course_ids (d : Database) : list Z :=
  map (fun r => value (Courses.course_id r)) (courses d).

Definition with_students (l : list Students.row) (seq : int64)
           (d : Database) : Database :=
  {| students := l;
     instructors := instructors d;
     courses := courses d;
     student_courses := student_courses d;
     seq_students := seq;
     seq_instructors := seq_instructors d;
     seq_courses := seq_courses d |}.

Definition with_instructors (l : list Instructors.row) (seq : int64)
           (d : Database) : Database :=
  {| students := students d;
     instructors := l;
     courses := courses d;
     student_courses := student_courses d;
     seq_students := seq_students d;
     seq_instructors := seq;
     seq_courses := seq_courses d |}.

Definition with_courses (l : list Courses.row) (seq : int64) (d : Database)
  : Database :=
  {| students := students d;
     instructors := instructors d;
     courses := l;
     student_courses := student_courses d;
     seq_students := seq_students d;
     seq_instructors := seq_instructors d;
     seq_courses := seq |}.

Definition with_student_courses (l : list StudentCourses.row) (d : Database)
  : Database :=
  {| students := students d;
     instructors := instructors d;
     courses := courses d;
     student_courses := l;
     seq_students := seq_students d;
     seq_instructors := seq_instructors d;
     seq_courses := seq_courses d |}.

(** [INSERT INTO students (name, age, email) VALUES (?, ?, ?)].  Once the
    table has held the largest rowid, SQLite refuses every INSERT with
    SQLITE_FULL, which [sqlite3] raises as [OperationalError]. *)
Definition insert_students (name : string) (age : int64) (email : string)
           (d : Database) : result Database :=
  let id := next_rowid (seq_students d) (student_ids d) in
  if fits id then
    Return
      (with_students
         (students d ++
            [{| Students.student_id := i64 id; Students.name := name;
                Students.age := age; Students.email := email |}])
         (i64 id) d)
  else Raise OperationalError.

(** [INSERT INTO instructors (name, age, email) VALUES (?, ?, ?)] *)
Definition insert_instructors (name : string) (age : int64) (email : string)
           (d : Database) : result Database :=
  let id := next_rowid (seq_instructors d) (instructor_ids d) in
  if fits id then
    Return
      (with_instructors
         (instructors d ++
            [{| Instructors.instructor_id := i64 id; Instructors.name := name;
                Instructors.age := age; Instructors.email := email |}])
         (i64 id) d)
  else Raise OperationalError.

(** [INSERT INTO courses (course_name, instructor_id) VALUES (?, ?)] *)
Definition insert_courses (course_name : string) (instructor_id : int64)
           (d : Database) : result Database :=
  let id := next_rowid (seq_courses d) (course_ids d) in
  if fits id then
    Return
      (with_courses
         (courses d ++
            [{| Courses.course_id := i64 id;
                Courses.course_name := course_name;
                Courses.instructor_id := Some instructor_id |}])
         (i64 id) d)
  else Raise OperationalError.

(** [INSERT INTO student_courses (student_id, course_id) VALUES (?, ?)]:
    [IntegrityError] when [PRIMARY KEY (student_id, course_id)] rejects the
    row. *)
Definition insert_student_courses (student_id course_id : option int64)
           (d : Database) : result Database :=
  let r := {| StudentCourses.student_id := student_id;
              StudentCourses.course_id := course_id |} in
  if existsb (StudentCourses.collide r) (student_courses d)
  then Raise IntegrityError
  else Return (with_student_courses (student_courses d ++ [r]) d).

(** [DELETE FROM students WHERE student_id = ?] *)
Definition delete_from_students (student_id : int64) (d : Database)
  : Database :=
  with_students
    (filter (fun r => negb (Students.student_id r =? student_id))
            (students d))
    (seq_students d) d.

(** [DELETE FROM instructors WHERE instructor_id = ?] *)
Definition delete_from_instructors (instructor_id : int64) (d : Database)
  : Database :=
  with_instructors
    (filter (fun r => negb (Instructors.instructor_id r =? instructor_id))
            (instructors d))
    (seq_instructors d) d.

(** [DELETE FROM courses WHERE course_id = ?] *)
Definition delete_from_courses (course_id : int64) (d : Database)
  : Database :=
  with_courses
    (filter (fun r => negb (Courses.course_id r =? course_id)) (courses d))
    (seq_courses d) d.

(** [UPDATE students SET name = ?, age = ?, email = ? WHERE student_id = ?] *)
Definition update_students (name : string) (age : int64) (email : string)
           (student_id : int64) (d : Database) : Database :=
  with_students
    (map (fun r =>
            if Students.student_id r =? student_id
            then {| Students.student_id := Students.student_id r;
                    Students.name := name; Students.age := age;
                    Students.email := email |}
            else r)
         (students d))
    (seq_students d) d.

(** [UPDATE instructors SET name = ?, age = ?, email = ?
     WHERE instructor_id = ?] *)
Definition update_instructors (name : string) (age : int64) (email : string)
           (instructor_id : int64) (d : Database) : Database :=
  with_instructors
    (map (fun r =>
            if Instructors.instructor_id r =? instructor_id
            then {| Instructors.instructor_id := Instructors.instructor_id r;
                    Instructors.name := name; Instructors.age := age;
                    Instructors.email := email |}
            else r)
         (instructors d))
    (seq_instructors d) d.

(** [UPDATE courses SET course_name = ?, instructor_id = ?
     WHERE course_id = ?] *)
Definition update_courses (course_name : string) (instructor_id : int64)
           (course_id : int64) (d : Database) : Database :=
  with_courses
    (map (fun r =>
            if Courses.course_id r =? course_id
            then {| Courses.course_id := Courses.course_id r;
                    Courses.course_name := course_name;
                    Courses.instructor_id := Some instructor_id |}
            else r)
         (courses d))
    (seq_courses d) d.

(** [WHERE course_id = ?]: a comparison with NULL is never true. *)
Definition course_id_is (course_id : option int64) (r : Courses.row) : bool :=
  match course_id with
  | Some c => Courses.course_id r =? c
  | None => false
  end.

(** [UPDATE courses SET instructor_id = ? WHERE course_id = ?]; [None] is
    bound as NULL. *)
Definition update_courses_instructor (instructor_id course_id : option int64)
           (d : Database) : Database :=
  with_courses
    (map (fun r =>
            if course_id_is course_id r
            then {| Courses.course_id := Courses.course_id r;
                    Courses.course_name := Courses.course_name r;
                    Courses.instructor_id := instructor_id |}
            else r)
         (courses d))
    (seq_courses d) d.

(** [SELECT * FROM instructors WHERE instructor_id = ?] and [fetchone()] *)
Definition select_instructor (instructor_id : int64) (d : Database)
  : option Instructors.row :=
  find (fun r => Instructors.instructor_id r =? instructor_id)
       (instructors d).

(** [SELECT * FROM courses WHERE course_name = ?] and [fetchone()] *)
Definition select_course_by_name (course_name : string) (d : Database)
  : option Courses.row :=
  find (fun r => String.eqb (Courses.course_name r) course_name) (courses d).

(** [SELECT instructor_id FROM instructors WHERE name = ?] and
    [fetchone()] *)
Definition select_instructor_by_name (name : string) (d : Database)
  : option Instructors.row :=
  find (fun r => String.eqb (Instructors.name r) name) (instructors d).

(* ================================================================== *)
(** ** The class [Database] *)
(* ================================================================== *)

(** What a method does besides changing the tables: the statements that
    SQLite runs for it (a rejected one included), its [connection.commit()]
    calls, and the modal dialogs it opens. *)
Inductive verb : Type := SELECT | INSERT | UPDATE | DELETE.

Inductive event : Type :=
| Execute (v : verb) (table : string)
| Commit
| ShowError (title message : string)
| ShowInfo (title message : string).

Record outcome (A : Type) : Type :=
  { log : list event; final : Database; res : result A }.

Arguments log {A} o.
Arguments final {A} o.
Arguments res {A} o.

(** A method body: it runs on the current tables and yields its events, the
    tables it leaves, and its return value or the exception it raises. *)
Definition M (A : Type) : Type := Database -> outcome A.

Definition ret {A : Type} (a : A) : M A :=
  fun d => {| log := []; final := d; res := Return a |}.

Definition raise {A : Type} (e : exn) : M A :=
  fun d => {| log := []; final := d; res := Raise e |}.

Definition bind {A B : Type} (m : M A) (k : A -> M B) : M B :=
  fun d =>
    let o := m d in
    match res o with
    | Return a =>
        let o' := k a (final o) in
        {| log := log o ++ log o'; final := final o'; res := res o' |}
    | Raise e => {| log := log o; final := final o; res := Raise e |}
    end.

(** [try: body except sqlite3.IntegrityError: handler] *)
Definition try_except_IntegrityError {A : Type} (body handler : M A) : M A :=
  fun d =>
    let o := body d in
    match res o with
    | Raise IntegrityError =>
        let o' := handler (final o) in
        {| log := log o ++ log o'; final := final o'; res := res o' |}
    | _ => o
    end.

Declare Scope db_scope.
Delimit Scope db_scope with db.
Notation "x <- m ;; k" := (bind m (fun x => k))
  (at level 61, m at next level, right associativity) : db_scope.
Notation "m ;; k" := (bind m (fun _ => k))
  (at level 61, right associativity) : db_scope.

Definition emit (e : event) : M unit :=
  fun d => {| log := [e]; final := d; res := Return tt |}.

(** The first thing [cursor.execute] does with an [int] parameter: it is
    converted to a 64-bit integer, or [OverflowError] is raised before the
    statement runs. *)
Definition bind_param (n : Z) : M int64 :=
  if fits n then ret (i64 n) else raise OverflowError.

(** The same for a parameter that may be [None], which is bound as NULL. *)
Definition bind_nullable (p : option Z) : M (option int64) :=
  match p with
  | Some n => bind (bind_param n) (fun n' => ret (Some n'))
  | None => ret None
  end.

(** [cursor.execute] of a SELECT followed by [fetchone()] or [fetchall()]. *)
Definition query {A : Type} (table : string) (q : Database -> A) : M A :=
  fun d => {| log := [Execute SELECT table]; final := d; res := Return (q d) |}.

(** [cursor.execute] of a statement that writes, its parameters bound; a
    statement that SQLite rejects changes nothing and raises. *)
Definition execute (v : verb) (table : string)
           (stmt : Database -> result Database) : M unit :=
  fun d =>
    match stmt d with
    | Return d' => {| log := [Execute v table]; final := d'; res := Return tt |}
    | Raise e => {| log := [Execute v table]; final := d; res := Raise e |}
    end.

Definition commit : M unit := emit Commit.

(** [show_error] and [show_info] ([messagebox.showerror] and
    [messagebox.showinfo] in [tkinter.py]). *)
Definition show_error (title message : string) : M unit :=
  emit (ShowError title message).

Definition show_info (title message : string) : M unit :=
  emit (ShowInfo title message).

(** [str(n)] as an f-string renders an [int]. *)
Definition str (n : Z) : string := NilZero.string_of_int (Z.to_int n).

(** The two files differ in one method body (see
    [register_student_course]). *)
Inductive toolkit : Type := PyQt5 | Tkinter.

Section Methods.

Variable ui : toolkit.

Local Open Scope db_scope.
Local Open Scope string_scope.

Definition get_instructor_id_by_name (instructor_name : string)
  : M (option int64) :=
  result <- query "instructors" (select_instructor_by_name instructor_name) ;;
  ret (option_map Instructors.instructor_id result).

Definition get_course_id_by_name (course_name : string) : M (option int64) :=
  result <- query "courses" (select_course_by_name course_name) ;;
  ret (option_map Courses.course_id result).

(** The handler of [add_student] formats [student.student_id], an attribute
    that [Student] does not have. *)
Definition add_student (student : Student.t) : M unit :=
  if negb (validate_email (Student.email student)) then
    show_error "Error" "Invalid email format."
  else if (Student.age student <=? 0)%Z then
    show_error "Error" "Age must be positive."
  else
    try_except_IntegrityError
      (age <- bind_param (Student.age student) ;;
       execute INSERT "students"
         (insert_students (Student.name student) age
            (Student.email student)) ;;
       commit ;;
       show_info "Success" "Student added successfully.")
      (raise AttributeError).

Definition add_instructor (instructor : Instructor.t) : M unit :=
  if negb (validate_email (Instructor.email instructor)) then
    show_error "Error" "Invalid email format."
  else if (Instructor.age instructor <=? 0)%Z then
    show_error "Error" "Age must be positive."
  else
    try_except_IntegrityError
      (age <- bind_param (Instructor.age instructor) ;;
       execute INSERT "instructors"
         (insert_instructors (Instructor.name instructor) age
            (Instructor.email instructor)) ;;
       commit ;;
       show_info "Success" "Instructor added successfully.")
      (raise AttributeError).

Definition add_course (course : Course.t) : M unit :=
  instructor_id <- bind_param (Course.instructor_id course) ;;
  instructor <- query "instructors" (select_instructor instructor_id) ;;
  match instructor with
  | None =>
      show_error "Error"
        ("Instructor ID " ++ str (Course.instructor_id course)
           ++ " does not exist.")
  | Some _ =>
      existing_course <- query "courses"
                           (select_course_by_name (Course.course_name course)) ;;
      match existing_course with
      | Some _ =>
          show_error "Error"
            ("Course with name '" ++ Course.course_name course
               ++ "' already exists.")
      | None =>
          try_except_IntegrityError
            (execute INSERT "courses"
               (insert_courses (Course.course_name course) instructor_id) ;;
             commit ;;
             show_info "Success" "Course added successfully.")
            (show_error "Error" "An error occurred while adding the course.")
      end
  end.

Definition get_students : M (list Students.row) := query "students" students.

Definition get_instructors : M (list Instructors.row) :=
  query "instructors" instructors.

Definition get_courses : M (list Courses.row) := query "courses" courses.

(** [pyqt.py] confirms a registration with a dialog, [tkinter.py] does not.
    The window of [pyqt.py] passes [currentData()] of its two boxes, which is
    [None] for an empty box. *)
Definition register_student_course (student_id course_id : option Z)
  : M unit :=
  try_except_IntegrityError
    (student_id <- bind_nullable student_id ;;
     course_id <- bind_nullable course_id ;;
     execute INSERT "student_courses"
       (insert_student_courses student_id course_id) ;;
     commit ;;
     match ui with
     | PyQt5 =>
         show_info "Success" "Student registered for course successfully."
     | Tkinter => ret tt
     end)
    (show_error "Error"
       "Registration failed. This student is already registered for this course.").

(** [with self.connection:] commits when the block ends normally and rolls
    back when it raises.  The window of [pyqt.py] passes [currentData()] of
    its two boxes here too. *)
Definition update_course_instructor (course_id instructor_id : option Z)
  : M unit :=
  instructor_id <- bind_nullable instructor_id ;;
  course_id <- bind_nullable course_id ;;
  execute UPDATE "courses"
    (fun d => Return (update_courses_instructor instructor_id course_id d)) ;;
  commit.

Definition delete_student (student_id : Z) : M unit :=
  student_id <- bind_param student_id ;;
  execute DELETE "students"
    (fun d => Return (delete_from_students student_id d)) ;;
  commit.

Definition delete_instructor (instructor_id : Z) : M unit :=
  instructor_id <- bind_param instructor_id ;;
  execute DELETE "instructors"
    (fun d => Return (delete_from_instructors instructor_id d)) ;;
  commit.

Definition delete_course (course_id : Z) : M unit :=
  course_id <- bind_param course_id ;;
  execute DELETE "courses"
    (fun d => Return (delete_from_courses course_id d)) ;;
  commit.

Definition update_student (student_id : Z) (name : string) (age : Z)
           (email : string) : M unit :=
  age <- bind_param age ;;
  student_id <- bind_param student_id ;;
  execute UPDATE "students"
    (fun d => Return (update_students name age email student_id d)) ;;
  commit.

Definition update_instructor (instructor_id : Z) (name : string) (age : Z)
           (email : string) : M unit :=
  age <- bind_param age ;;
  instructor_id <- bind_param instructor_id ;;
  execute UPDATE "instructors"
    (fun d => Return (update_instructors name age email instructor_id d)) ;;
  commit.

Definition update_course (course_id : Z) (course_name : string)
           (instructor_id : Z) : M unit :=
  instructor_id <- bind_param instructor_id ;;
  course_id <- bind_param course_id ;;
  execute UPDATE "courses"
    (fun d => Return (update_courses course_name instructor_id course_id d)) ;;
  commit.

(** One call of a writing method, and what a sequence of calls leaves. *)
Inductive call : Type :=
| Add_student (student : Student.t)
| Add_instructor (instructor : Instructor.t)
| Add_course (course : Course.t)
| Register_student_course (student_id course_id : option Z)
| Update_course_instructor (course_id instructor_id : option Z)
| Delete_student (student_id : Z)
| Delete_instructor (instructor_id : Z)
| Delete_course (course_id : Z)
| Update_student (student_id : Z) (name : string) (age : Z) (email : string)
| Update_instructor (instructor_id : Z) (name : string) (age : Z)
                    (email : string)
| Update_course (course_id : Z) (course_name : string) (instructor_id : Z).

Definition invoke (c : call) : M unit :=
  match c with
  | Add_student s => add_student s
  | Add_instructor i => add_instructor i
  | Add_course c => add_course c
  | Register_student_course s c => register_student_course s c
  | Update_course_instructor c i => update_course_instructor c i
  | Delete_student s => delete_student s
  | Delete_instructor i => delete_instructor i
  | Delete_course c => delete_course c
  | Update_student s n a e => update_student s n a e
  | Update_instructor i n a e => update_instructor i n a e
  | Update_course c n i => update_course c n i
  end.

Definition run (cs : list call) (d : Database) : Database :=
  fold_left (fun d c => final (invoke c d)) cs d.

(** The states the class can bring a fresh database file to. *)
Definition reachable (d : Database) : Prop :=
  exists cs : list call, d = run cs empty_db.

End Methods.

(* ================================================================== *)
(** ** The vocabulary of the properties *)
(* ================================================================== *)

(** Course names are unique. *)
Definition unique_course_names (d : Database) : Prop :=
  NoDup (map Courses.course_name (courses d)).

(** An email that [validate_email] accepts and a positive age. *)
Definition person_ok (age : Z) (email : string) : Prop :=
  validate_email email = true /\ 0 < age.

(** The boolean form of [person_ok]: the regex match and the positive-integer
    check that the specification asks of a write. *)
Definition person_inputs_ok (age : Z) (email : string) : bool :=
  validate_email email && (0 <? age).

Definition valid_people (d : Database) : Prop :=
  Forall (fun r => person_ok (Students.age r) (Students.email r))
         (students d)
  /\ Forall (fun r => person_ok (Instructors.age r) (Instructors.email r))
            (instructors d).

(** Some row of [instructors] carries the id; some row of [courses] carries
    the name. *)
Definition instructor_exists (instructor_id : Z) (d : Database) : Prop :=
  exists r, In r (instructors d)
            /\ value (Instructors.instructor_id r) = instructor_id.

Definition course_name_exists (course_name : string) (d : Database) : Prop :=
  exists r, In r (courses d) /\ Courses.course_name r = course_name.

(** The existence lookups that the specification asks of a write to
    [courses]. *)
Definition course_inputs_ok (course_name : string) (instructor_id : Z)
           (d : Database) : bool :=
  existsb (fun r => Instructors.instructor_id r =? instructor_id)
          (instructors d)
  && negb (existsb (fun r => String.eqb (Courses.course_name r) course_name)
                   (courses d)).

(** The table can still assign an id: its AUTOINCREMENT sequence has not
    reached the largest rowid. *)
Definition room_for_student (d : Database) : Prop :=
  fits (next_rowid (seq_students d) (student_ids d)) = true.

Definition room_for_instructor (d : Database) : Prop :=
  fits (next_rowid (seq_instructors d) (instructor_ids d)) = true.

Definition room_for_course (d : Database) : Prop :=
  fits (next_rowid (seq_courses d) (course_ids d)) = true.

(** A parameter that may be [None] can be bound, and what is then stored. *)
Definition bindable (p : option Z) : bool :=
  match p with
  | Some n => fits n
  | None => true
  end.

Definition stored (p : option Z) : option int64 := option_map i64 p.

(** The statements of a log that write. *)
Definition is_write (e : event) : bool :=
  match e with
  | Execute SELECT _ => false
  | Execute _ _ => true
  | _ => false
  end.

Definition writes (l : list event) : list event := filter is_write l.

Definition is_error (e : event) : bool :=
  match e with
  | ShowError _ _ => true
  | _ => false
  end.

(** A call fails when it opens an error dialog or ends in an exception. *)
Definition failed {A : Type} (o : outcome A) : Prop :=
  existsb is_error (log o) = true \/ exists e, res o = Raise e.

(** The four tables of two states agree. *)
Definition same_tables (d d' : Database) : Prop :=
  students d' = students d /\ instructors d' = instructors d
  /\ courses d' = courses d /\ student_courses d' = student_courses d.

(** A log whose one writing statement is [v] on [table], committed at
    once. *)
Definition one_write_then_commit (v : verb) (table : string)
           (l : list event) : Prop :=
  exists pre post,
    l = pre ++ Execute v table :: Commit :: post
    /\ writes pre = [] /\ writes post = [].

(** A call on [d] with outcome [o] validates before it writes, [ok] being the
    verdict of the validation: on a good verdict it performs its single
    statement, [v] on [table], and commits; on a bad one it writes
    nothing. *)
Definition validated_write (v : verb) (table : string) (ok : bool)
           (d : Database) (o : outcome unit) : Prop :=
  (ok = true -> one_write_then_commit v table (log o))
  /\ (ok = false -> writes (log o) = [] /\ final o = d).

(** The three [update_] methods that rewrite a whole row. *)
Definition is_update (c : call) : bool :=
  match c with
  | Update_student _ _ _ _ | Update_instructor _ _ _ _ | Update_course _ _ _ =>
      true
  | _ => false
  end.

(** The statement a call hands to SQLite when it gets that far. *)
Definition statement_of (c : call) : event :=
  match c with
  | Add_student _ => Execute INSERT "students"
  | Add_instructor _ => Execute INSERT "instructors"
  | Add_course _ => Execute INSERT "courses"
  | Register_student_course _ _ => Execute INSERT "student_courses"
  | Update_course_instructor _ _ => Execute UPDATE "courses"
  | Delete_student _ => Execute DELETE "students"
  | Delete_instructor _ => Execute DELETE "instructors"
  | Delete_course _ => Execute DELETE "courses"
  | Update_student _ _ _ _ => Execute UPDATE "students"
  | Update_instructor _ _ _ _ => Execute UPDATE "instructors"
  | Update_course _ _ _ => Execute UPDATE "courses"
  end.

(** The row that an accepted [add_student] appends. *)
Definition new_student_row (s : Student.t) (d : Database) : Students.row :=
  {| Students.student_id :=
       i64 (next_rowid (seq_students d) (student_ids d));
     Students.name := Student.name s;
     Students.age := i64 (Student.age s);
     Students.email := Student.email s |}.

(** The row that an accepted [add_instructor] appends. *)
Definition new_instructor_row (i : Instructor.t) (d : Database)
  : Instructors.row :=
  {| Instructors.instructor_id :=
       i64 (next_rowid (seq_instructors d) (instructor_ids d));
     Instructors.name := Instructor.name i;
     Instructors.age := i64 (Instructor.age i);
     Instructors.email := Instructor.email i |}.

(** The row that an accepted [add_course] appends. *)
Definition new_course_row (c : Course.t) (d : Database) : Courses.row :=
  {| Courses.course_id := i64 (next_rowid (seq_courses d) (course_ids d));
     Courses.course_name := Course.course_name c;
     Courses.instructor_id := Some (i64 (Course.instructor_id c)) |}.

(** The row that an accepted [register_student_course] appends. *)
Definition enrollment (student_id course_id : option Z)
  : StudentCourses.row :=
  {| StudentCourses.student_id := stored student_id;
     StudentCourses.course_id := stored course_id |}.

(** The enrollment that the window of [pyqt.py] registers from two empty
    boxes. *)
Definition null_enrollment : StudentCourses.row :=
  {| StudentCourses.student_id := None; StudentCourses.course_id := None |}.

(** The value a method returns, when it returns. *)
Definition returned {A : Type} (o : outcome A) : option A :=
  match res o with
  | Return a => Some a
  | Raise _ => None
  end.

(** The characters that an accepted address is made of. *)
Definition address_chars : charset :=
  (local_chars ++ [Single "@"%char])%list.

(* ================================================================== *)
(** ** Keys *)
(* ================================================================== *)

(** The rows of a table with an [INTEGER PRIMARY KEY AUTOINCREMENT] key: in
    rowid order the keys increase strictly, and each is positive and at most
    the table's entry in [sqlite_sequence]. *)
Definition keyed {A : Type} (key : A -> Z) (seq : Z) (rows : list A) : Prop :=
  StronglySorted (fun a b => key a < key b) rows
  /\ Forall (fun a => 0 < key a <= seq) rows
  /\ 0 <= seq.

Definition keys_ok (d : Database) : Prop :=
  keyed (fun r => value (Students.student_id r)) (seq_students d) (students d)
  /\ keyed (fun r => value (Instructors.instructor_id r)) (seq_instructors d)
           (instructors d)
  /\ keyed (fun r => value (Courses.course_id r)) (seq_courses d) (courses d).

(* ================================================================== *)
(** ** The window of [tkinter.py] *)
(* ================================================================== *)

(** [SchoolManagementGUI] of [tkinter.py], as far as the handlers below use
    it: the database and the rows that the three [ttk.Treeview] widgets
    show.  What a handler reads from an entry or a combobox is an argument of
    its model. *)
Record Gui : Type :=
  { db : Database;
    student_tree : list Students.row;
    instructor_tree : list Instructors.row;
    course_tree : list Courses.row }.

Inductive gui_exn : Type :=
| DatabaseError (e : exn)
| TypeError.

Inductive gui_result (A : Type) : Type :=
| Done (a : A)
| Failed (e : gui_exn).

Arguments Done {A} a.
Arguments Failed {A} e.

Record gui_outcome (A : Type) : Type :=
  { gui_log : list event; gui_final : Gui; gui_res : gui_result A }.

Arguments gui_log {A} _.
Arguments gui_final {A} _.
Arguments gui_res {A} _.

Definition G (A : Type) : Type := Gui -> gui_outcome A.

Definition gret {A : Type} (a : A) : G A :=
  fun g => {| gui_log := []; gui_final := g; gui_res := Done a |}.

Definition graise {A : Type} (e : gui_exn) : G A :=
  fun g => {| gui_log := []; gui_final := g; gui_res := Failed e |}.

Definition gbind {A B : Type} (m : G A) (k : A -> G B) : G B :=
  fun g =>
    let o := m g in
    match gui_res o with
    | Done a =>
        let o' := k a (gui_final o) in
        {| gui_log := gui_log o ++ gui_log o';
           gui_final := gui_final o';
           gui_res := gui_res o' |}
    | Failed e =>
        {| gui_log := gui_log o; gui_final := gui_final o;
           gui_res := Failed e |}
    end.

(** A call [self.db.method(...)]. *)
Definition call_db {A : Type} (m : M A) : G A :=
  fun g =>
    let o := m (db g) in
    {| gui_log := log o;
       gui_final := {| db := final o;
                       student_tree := student_tree g;
                       instructor_tree := instructor_tree g;
                       course_tree := course_tree g |};
       gui_res := match res o with
                  | Return a => Done a
                  | Raise e => Failed (DatabaseError e)
                  end |}.

Definition messagebox (e : event) : G unit :=
  fun g => {| gui_log := [e]; gui_final := g; gui_res := Done tt |}.

Definition set_course_tree (rows : list Courses.row) : G unit :=
  fun g =>
    {| gui_log := [];
       gui_final := {| db := db g;
                       student_tree := student_tree g;
                       instructor_tree := instructor_tree g;
                       course_tree := rows |};
       gui_res := Done tt |}.

Definition get_course_tree : G (list Courses.row) :=
  fun g => {| gui_log := []; gui_final := g; gui_res := Done (course_tree g) |}.

Section Window.

Local Open Scope string_scope.

Notation "x <- m ;; k" := (gbind m (fun x => k))
  (at level 61, m at next level, right associativity).
Notation "m ;; k" := (gbind m (fun _ => k))
  (at level 61, right associativity).

(** [load_courses]: every row of [get_courses()] is inserted at the end of
    the tree, which is not cleared first; the method returns [None]. *)
Definition load_courses : G unit :=
  rows <- call_db get_courses ;;
  shown <- get_course_tree ;;
  set_course_tree (shown ++ rows)%list.

(** [update_treeview]: the tree is emptied, [load_courses()] fills it and
    returns [None], and the loop over that [None] raises [TypeError]. *)
Definition update_treeview : G unit :=
  set_course_tree [] ;;
  load_courses ;;
  graise TypeError.

(** [assign_instructor]; the two arguments are what
    [self.instructor_dropdown.get()] and [self.course_dropdown.get()]
    return. *)
Definition assign_instructor (instructor_name course_name : string)
  : G unit :=
  if String.eqb instructor_name "" then
    messagebox (ShowError "Error" "Please select an instructor.")
  else if String.eqb course_name "" then
    messagebox (ShowError "Error" "Please select a course.")
  else
    instructor_id <- call_db (get_instructor_id_by_name instructor_name) ;;
    match instructor_id with
    | None =>
        messagebox
          (ShowError "Error"
             "Invalid instructor selection. Please check the database.")
    | Some instructor_id =>
        course_id <- call_db (get_course_id_by_name course_name) ;;
        match course_id with
        | None =>
            messagebox
              (ShowError "Error"
                 "Invalid course selection. Please check the database.")
        | Some course_id =>
            call_db (update_course_instructor (Some (value course_id))
                       (Some (value instructor_id))) ;;
            messagebox
              (ShowInfo "Success"
                 ("Instructor " ++ instructor_name ++ " assigned to "
                    ++ course_name ++ "!")) ;;
            update_treeview
        end
    end.

End Window.
(* ================================================================== *)
(** ** Properties of [validate_email] *)
(* ================================================================== *)

Section RegexFacts.

Local Open Scope nat_scope.

(** A repetition matches exactly when the subject splits into a run of at
    least [lo] characters of the class and a rest that the continuation
    accepts. *)
Lemma rep_spec (cs : charset) (k : nat -> list ascii -> bool) :
  forall (s : list ascii) (lo pos : nat),
    rep cs k lo pos s = true <->
    exists p q, s = p ++ q /\ forallb (in_charset cs) p = true
                /\ lo <= List.length p /\ k (pos + List.length p) q = true.
Proof.
  induction s as [|c s IH]; intros lo pos; simpl.
  - rewrite andb_true_iff, Nat.eqb_eq. split.
    + intros [-> Hk]. exists [], []. simpl. rewrite Nat.add_0_r. auto.
    + intros (p & q & Hs & _ & Hlo & Hk).
      symmetry in Hs. apply app_eq_nil in Hs as [-> ->]. simpl in *.
      rewrite Nat.add_0_r in Hk. split; [lia | assumption].
  - rewrite orb_true_iff, !andb_true_iff, Nat.eqb_eq, IH. split.
    + intros [[Hc (p & q & -> & Hp & Hlo & Hk)] | [-> Hk]].
      * exists (c :: p), q. simpl. rewrite Hc, Hp.
        replace (pos + S (List.length p)) with (S pos + List.length p) by lia.
        repeat split; [lia | assumption].
      * exists [], (c :: s). simpl. rewrite Nat.add_0_r. auto.
    + intros (p & q & Hs & Hp & Hlo & Hk). destruct p as [|c' p].
      * right. simpl in *. subst q. rewrite Nat.add_0_r in Hk.
        split; [lia | assumption].
      * left. simpl in *. injection Hs as <- ->.
        apply andb_true_iff in Hp as [Hc Hp]. split; [assumption|].
        exists p, q.
        replace (S (pos + List.length p)) with (pos + S (List.length p))
          by lia.
        repeat split; [assumption | lia | assumption].
Qed.

Lemma at_end_spec (s : list ascii) :
  at_end s = true <-> s = [] \/ s = [newline].
Proof.
  destruct s as [|c [|c' s]]; simpl.
  - intuition.
  - destruct (Ascii.eqb_spec c newline) as [->|Hne].
    + intuition.
    + split; [discriminate|]. intros [H|H]; [discriminate|].
      injection H as ->. contradiction.
  - split; [discriminate|]. intros [H|H]; discriminate.
Qed.

(** What the pattern of [validate_email] accepts, on character lists. *)
Lemma match_regex_spec (s : list ascii) :
  match_here regex 0 s = true <->
  email_shape s \/ exists s0, s = s0 ++ [newline] /\ email_shape s0.
Proof.
  unfold regex. cbn [match_here Nat.eqb andb]. rewrite rep_spec. split.
  - intros (l & q1 & -> & Hl & Hll & Hk).
    destruct q1 as [|a q1]; [discriminate|].
    apply andb_true_iff in Hk as [Ha Hk].
    apply Ascii.eqb_eq in Ha as ->.
    apply rep_spec in Hk as (d & q2 & -> & Hd & Hdl & Hk).
    destruct q2 as [|b q2]; [discriminate|].
    apply andb_true_iff in Hk as [Hb Hk].
    apply Ascii.eqb_eq in Hb as ->.
    apply rep_spec in Hk as (t & q3 & -> & Ht & Htl & Hk).
    rewrite andb_true_r in Hk. apply at_end_spec in Hk as [-> | ->].
    + left. rewrite app_nil_r. exists l, d, t. auto 10.
    + right. exists (l ++ "@"%char :: d ++ "."%char :: t). split.
      * rewrite <- !app_assoc. simpl. rewrite <- app_assoc. reflexivity.
      * exists l, d, t. auto 10.
  - intros H.
    assert (exists l d t z,
               s = l ++ "@"%char :: d ++ "."%char :: t ++ z
               /\ 1 <= List.length l
               /\ forallb (in_charset local_chars) l = true
               /\ 1 <= List.length d
               /\ forallb (in_charset domain_chars) d = true
               /\ 2 <= List.length t
               /\ forallb (in_charset letters) t = true
               /\ at_end z = true)
      as (l & d & t & z & -> & Hll & Hl & Hdl & Hd & Htl & Ht & Hz).
    { destruct H as [(l & d & t & -> & Hr) | (s0 & -> & l & d & t & -> & Hr)].
      - exists l, d, t, []. rewrite app_nil_r. intuition.
      - exists l, d, t, [newline]. split.
        + rewrite <- !app_assoc. simpl. rewrite <- app_assoc. reflexivity.
        + intuition. }
    exists l, ("@"%char :: d ++ "."%char :: t ++ z).
    repeat split; try assumption.
    cbn [andb]. rewrite Ascii.eqb_refl. cbn [andb]. apply rep_spec.
    exists d, ("."%char :: t ++ z). repeat split; try assumption.
    rewrite Ascii.eqb_refl. cbn [andb]. apply rep_spec.
    exists t, z. repeat split; try assumption.
    rewrite Hz. reflexivity.
Qed.

(** An address of the specified shape ends in a letter. *)
Lemma email_shape_last (e : list ascii) :
  email_shape e ->
  exists e' c, e = e' ++ [c] /\ in_charset letters c = true.
Proof.
  intros (l & d & t & -> & _ & _ & _ & _ & Htl & Ht).
  destruct (exists_last (l := t)) as (t' & c & ->).
  { intros ->. simpl in Htl. lia. }
  rewrite forallb_app in Ht. apply andb_true_iff in Ht as [_ Hc].
  simpl in Hc. rewrite andb_true_r in Hc.
  exists (l ++ "@"%char :: d ++ "."%char :: t'), c. split; [|assumption].
  rewrite <- !app_assoc. simpl. rewrite <- app_assoc. reflexivity.
Qed.

Lemma email_shape_has_at_and_dot (e : list ascii) :
  email_shape e -> In "@"%char e /\ In "."%char e.
Proof.
  intros (l & d & t & -> & _).
  split; apply in_or_app; right; simpl; [auto|].
  right. apply in_or_app. right. simpl. auto.
Qed.

End RegexFacts.

Local Open Scope string_scope.
Local Open Scope Z_scope.

(** What [validate_email] accepts: a non-empty run of [[a-zA-Z0-9._%+-]],
    then [@], then a non-empty run of [[a-zA-Z0-9.-]], then a dot, then two
    or more ASCII letters, and after them nothing or one final newline
    (Python's [$] also matches just before a trailing newline).  An accepted
    string therefore contains [@] and a dot. *)
Lemma validate_email_spec (e : string) :
  (validate_email e = true <->
   email_shape (chars e)
   \/ exists e0, chars e = (e0 ++ [newline])%list /\ email_shape e0)
  /\ (validate_email e = true ->
      In "@"%char (chars e) /\ In "."%char (chars e)).
Proof.
  assert (Hiff : validate_email e = true <->
                 email_shape (chars e)
                 \/ exists e0, chars e = (e0 ++ [newline])%list /\ email_shape e0)
    by apply match_regex_spec.
  split; [exact Hiff|].
  intros H. apply Hiff in H as [H | (e0 & -> & H)].
  - apply email_shape_has_at_and_dot; assumption.
  - apply email_shape_has_at_and_dot in H as [Ha Hd].
    split; apply in_or_app; left; assumption.
Qed.

(** C8.  The pattern anchors its end with [$], which in Python also matches
    just before a newline that ends the string: [validate_email] accepts
    [a@b.cc] followed by a newline, although a character follows the final
    letters, and [add_student] then stores the address with its newline. *)
Theorem validate_email_accepts_trailing_newline :
  let email := "a@b.cc" ++ String newline "" in
  validate_email email = true
  /\ ~ email_shape (chars email)
  /\ students (final (add_student
                        {| Student.name := "Ada"; Student.age := 20;
                           Student.email := email |} empty_db))
     = [{| Students.student_id := i64 1; Students.name := "Ada";
           Students.age := i64 20; Students.email := email |}].
Proof.
  intros email. split; [reflexivity|]. split; [|reflexivity].
  intros H. apply email_shape_last in H as (e' & c & He & Hc).
  change (chars email) with (chars "a@b.cc" ++ [newline])%list in He.
  apply app_inj_tail in He as [_ <-]. discriminate Hc.
Qed.

(* ================================================================== *)
(** ** Stored integers *)
(* ================================================================== *)

Lemma value_i64 (n : Z) : fits n = true -> value (i64 n) = n.
Proof.
  intros H. unfold i64. destruct (fits_dec n) as [Ht|Hf]; [reflexivity|].
  congruence.
Qed.

(** Two stored integers with the same value are the same. *)
Lemma int64_eq (a b : int64) : value a = value b -> a = b.
Proof.
  destruct a as [x Hx], b as [y Hy]. simpl. intros <-. f_equal.
  apply UIP_dec. apply bool_dec.
Qed.

Lemma i64_value (a : int64) : i64 (value a) = a.
Proof. apply int64_eq, value_i64, in_range. Qed.

Lemma fits_bounds (n : Z) :
  fits n = true <-> min_int64 <= n <= max_int64.
Proof.
  unfold fits. rewrite andb_true_iff, !Z.leb_le. reflexivity.
Qed.

Lemma int64_bounds (a : int64) : min_int64 <= value a <= max_int64.
Proof. apply fits_bounds, in_range. Qed.

Lemma bindable_value (a : int64) : fits (value a) = true.
Proof. apply in_range. Qed.

(* ================================================================== *)
(** ** What each method does *)
(* ================================================================== *)

Lemma person_inputs_ok_iff (age : Z) (email : string) :
  person_inputs_ok age email = true <-> person_ok age email.
Proof.
  unfold person_inputs_ok, person_ok.
  rewrite andb_true_iff, Z.ltb_lt. reflexivity.
Qed.

(** [add_student], branch by branch: the two checks, the binding of the age,
    the INSERT. *)
Lemma add_student_eq (s : Student.t) (d : Database) :
  add_student s d =
  if negb (validate_email (Student.email s)) then
    {| log := [ShowError "Error" "Invalid email format."]; final := d;
       res := Return tt |}
  else if Student.age s <=? 0 then
    {| log := [ShowError "Error" "Age must be positive."]; final := d;
       res := Return tt |}
  else if negb (fits (Student.age s)) then
    {| log := []; final := d; res := Raise OverflowError |}
  else if negb (fits (next_rowid (seq_students d) (student_ids d))) then
    {| log := [Execute INSERT "students"]; final := d;
       res := Raise OperationalError |}
  else
    {| log := [Execute INSERT "students"; Commit;
               ShowInfo "Success" "Student added successfully."];
       final := with_students (students d ++ [new_student_row s d])
                  (i64 (next_rowid (seq_students d) (student_ids d))) d;
       res := Return tt |}.
Proof.
  unfold add_student.
  destruct (negb (validate_email (Student.email s))); [reflexivity|].
  destruct (Student.age s <=? 0); [reflexivity|].
  unfold try_except_IntegrityError, bind, bind_param, execute,
    insert_students.
  destruct (fits (Student.age s)); [|reflexivity].
  cbn [negb ret res final log].
  destruct (fits (next_rowid (seq_students d) (student_ids d)));
    reflexivity.
Qed.

Lemma add_instructor_eq (i : Instructor.t) (d : Database) :
  add_instructor i d =
  if negb (validate_email (Instructor.email i)) then
    {| log := [ShowError "Error" "Invalid email format."]; final := d;
       res := Return tt |}
  else if Instructor.age i <=? 0 then
    {| log := [ShowError "Error" "Age must be positive."]; final := d;
       res := Return tt |}
  else if negb (fits (Instructor.age i)) then
    {| log := []; final := d; res := Raise OverflowError |}
  else if negb (fits (next_rowid (seq_instructors d) (instructor_ids d))) then
    {| log := [Execute INSERT "instructors"]; final := d;
       res := Raise OperationalError |}
  else
    {| log := [Execute INSERT "instructors"; Commit;
               ShowInfo "Success" "Instructor added successfully."];
       final := with_instructors (instructors d ++ [new_instructor_row i d])
                  (i64 (next_rowid (seq_instructors d) (instructor_ids d))) d;
       res := Return tt |}.
Proof.
  unfold add_instructor.
  destruct (negb (validate_email (Instructor.email i))); [reflexivity|].
  destruct (Instructor.age i <=? 0); [reflexivity|].
  unfold try_except_IntegrityError, bind, bind_param, execute,
    insert_instructors.
  destruct (fits (Instructor.age i)); [|reflexivity].
  cbn [negb ret res final log].
  destruct (fits (next_rowid (seq_instructors d) (instructor_ids d)));
    reflexivity.
Qed.

Lemma add_course_eq (c : Course.t) (d : Database) :
  add_course c d =
  if negb (fits (Course.instructor_id c)) then
    {| log := []; final := d; res := Raise OverflowError |}
  else
    match select_instructor (i64 (Course.instructor_id c)) d with
    | None =>
        {| log := [Execute SELECT "instructors";
                   ShowError "Error"
                     ("Instructor ID " ++ str (Course.instructor_id c)
                        ++ " does not exist.")];
           final := d; res := Return tt |}
    | Some _ =>
        match select_course_by_name (Course.course_name c) d with
        | Some _ =>
            {| log := [Execute SELECT "instructors"; Execute SELECT "courses";
                       ShowError "Error"
                         ("Course with name '" ++ Course.course_name c
                            ++ "' already exists.")];
               final := d; res := Return tt |}
        | None =>
            if negb (fits (next_rowid (seq_courses d) (course_ids d))) then
              {| log := [Execute SELECT "instructors";
                         Execute SELECT "courses"; Execute INSERT "courses"];
                 final := d; res := Raise OperationalError |}
            else
              {| log := [Execute SELECT "instructors";
                         Execute SELECT "courses"; Execute INSERT "courses";
                         Commit;
                         ShowInfo "Success" "Course added successfully."];
                 final := with_courses (courses d ++ [new_course_row c d])
                            (i64 (next_rowid (seq_courses d) (course_ids d)))
                            d;
                 res := Return tt |}
        end
    end.
Proof.
  unfold add_course, try_except_IntegrityError, bind, bind_param, query,
    execute, insert_courses.
  destruct (fits (Course.instructor_id c)); [|reflexivity].
  cbn [negb ret res final log].
  destruct (select_instructor (i64 (Course.instructor_id c)) d);
    [|reflexivity].
  cbn [res final log].
  destruct (select_course_by_name (Course.course_name c) d); [reflexivity|].
  cbn [res final log].
  destruct (fits (next_rowid (seq_courses d) (course_ids d))); reflexivity.
Qed.

Lemma bind_nullable_eq (p : option Z) (d : Database) :
  bind_nullable p d =
  if bindable p then {| log := []; final := d; res := Return (stored p) |}
  else {| log := []; final := d; res := Raise OverflowError |}.
Proof.
  destruct p as [n|]; [|reflexivity].
  unfold bind_nullable, bind, bind_param, bindable. 
  destruct (fits n); reflexivity.
Qed.

Lemma register_student_course_eq (ui : toolkit) (s c : option Z)
      (d : Database) :
  register_student_course ui s c d =
  if negb (bindable s && bindable c) then
    {| log := []; final := d; res := Raise OverflowError |}
  else if existsb (StudentCourses.collide (enrollment s c))
                  (student_courses d) then
    {| log := [Execute INSERT "student_courses";
               ShowError "Error"
                 "Registration failed. This student is already registered for this course."];
       final := d; res := Return tt |}
  else
    {| log := Execute INSERT "student_courses" :: Commit ::
                match ui with
                | PyQt5 =>
                    [ShowInfo "Success"
                       "Student registered for course successfully."]
                | Tkinter => []
                end;
       final := with_student_courses (student_courses d ++ [enrollment s c]) d;
       res := Return tt |}.
Proof.
  unfold register_student_course, try_except_IntegrityError, bind.
  rewrite bind_nullable_eq.
  destruct (bindable s); [|reflexivity].
  cbn [res final log andb]. rewrite bind_nullable_eq.
  destruct (bindable c); [|reflexivity].
  cbn [res final log negb app]. unfold execute, insert_student_courses.
  fold (enrollment s c).
  destruct (existsb (StudentCourses.collide (enrollment s c))
                    (student_courses d)); [reflexivity|].
  destruct ui; reflexivity.
Qed.

Lemma update_course_instructor_eq (c i : option Z) (d : Database) :
  update_course_instructor c i d =
  if negb (bindable i && bindable c) then
    {| log := []; final := d; res := Raise OverflowError |}
  else
    {| log := [Execute UPDATE "courses"; Commit];
       final := update_courses_instructor (stored i) (stored c) d;
       res := Return tt |}.
Proof.
  unfold update_course_instructor, bind.
  rewrite bind_nullable_eq.
  destruct (bindable i); [|reflexivity].
  cbn [res final log andb]. rewrite bind_nullable_eq.
  destruct (bindable c); reflexivity.
Qed.

Lemma delete_student_eq (id : Z) (d : Database) :
  delete_student id d =
  if negb (fits id) then
    {| log := []; final := d; res := Raise OverflowError |}
  else
    {| log := [Execute DELETE "students"; Commit];
       final := delete_from_students (i64 id) d; res := Return tt |}.
Proof.
  unfold delete_student, bind, bind_param. destruct (fits id); reflexivity.
Qed.

Lemma delete_instructor_eq (id : Z) (d : Database) :
  delete_instructor id d =
  if negb (fits id) then
    {| log := []; final := d; res := Raise OverflowError |}
  else
    {| log := [Execute DELETE "instructors"; Commit];
       final := delete_from_instructors (i64 id) d; res := Return tt |}.
Proof.
  unfold delete_instructor, bind, bind_param. destruct (fits id); reflexivity.
Qed.

Lemma delete_course_eq (id : Z) (d : Database) :
  delete_course id d =
  if negb (fits id) then
    {| log := []; final := d; res := Raise OverflowError |}
  else
    {| log := [Execute DELETE "courses"; Commit];
       final := delete_from_courses (i64 id) d; res := Return tt |}.
Proof.
  unfold delete_course, bind, bind_param. destruct (fits id); reflexivity.
Qed.

Lemma update_student_eq (id : Z) (n : string) (a : Z) (e : string)
      (d : Database) :
  update_student id n a e d =
  if negb (fits a && fits id) then
    {| log := []; final := d; res := Raise OverflowError |}
  else
    {| log := [Execute UPDATE "students"; Commit];
       final := update_students n (i64 a) e (i64 id) d; res := Return tt |}.
Proof.
  unfold update_student, bind, bind_param.
  destruct (fits a); [|reflexivity]. cbn [ret res final log andb].
  destruct (fits id); reflexivity.
Qed.

Lemma update_instructor_eq (id : Z) (n : string) (a : Z) (e : string)
      (d : Database) :
  update_instructor id n a e d =
  if negb (fits a && fits id) then
    {| log := []; final := d; res := Raise OverflowError |}
  else
    {| log := [Execute UPDATE "instructors"; Commit];
       final := update_instructors n (i64 a) e (i64 id) d; res := Return tt |}.
Proof.
  unfold update_instructor, bind, bind_param.
  destruct (fits a); [|reflexivity]. cbn [ret res final log andb].
  destruct (fits id); reflexivity.
Qed.

Lemma update_course_eq (id : Z) (n : string) (i : Z) (d : Database) :
  update_course id n i d =
  if negb (fits i && fits id) then
    {| log := []; final := d; res := Raise OverflowError |}
  else
    {| log := [Execute UPDATE "courses"; Commit];
       final := update_courses n (i64 i) (i64 id) d; res := Return tt |}.
Proof.
  unfold update_course, bind, bind_param.
  destruct (fits i); [|reflexivity]. cbn [ret res final log andb].
  destruct (fits id); reflexivity.
Qed.

(** Case analysis on the branch a call takes, with its outcome written
    out. *)
Ltac branches :=
  repeat match goal with
         | |- context [if ?b then _ else _] => destruct b eqn:?
         | |- context [match ?x with Some _ => _ | None => _ end] =>
             destruct x eqn:?
         | |- context [match ?x with PyQt5 => _ | Tkinter => _ end] =>
             destruct x
         end.

Ltac outcome_of_call :=
  cbn [invoke];
  first [ rewrite add_student_eq | rewrite add_instructor_eq
        | rewrite add_course_eq | rewrite register_student_course_eq
        | rewrite update_course_instructor_eq | rewrite delete_student_eq
        | rewrite delete_instructor_eq | rewrite delete_course_eq
        | rewrite update_student_eq | rewrite update_instructor_eq
        | rewrite update_course_eq ];
  branches.

Lemma find_is_none {A : Type} (p : A -> bool) (rows : list A) :
  find p rows = None <-> forall x, In x rows -> p x = false.
Proof.
  split; [apply find_none|].
  induction rows as [|a rows IH]; simpl; intros H; [reflexivity|].
  rewrite (H a (or_introl eq_refl)). apply IH. intros x Hx. apply H. auto.
Qed.

(** The lookups of [add_course] decide what [course_inputs_ok] asks. *)
Lemma select_instructor_none (iid : Z) (d : Database) :
  fits iid = true ->
  select_instructor (i64 iid) d = None <-> ~ instructor_exists iid d.
Proof.
  intros Hf. unfold select_instructor, instructor_exists.
  rewrite find_is_none, (value_i64 iid Hf). split.
  - intros H (r & Hr & Hid). specialize (H r Hr).
    apply Z.eqb_neq in H. contradiction.
  - intros H r Hr. apply Z.eqb_neq. intros Hid. apply H. exists r. auto.
Qed.

Lemma select_course_by_name_none (n : string) (d : Database) :
  select_course_by_name n d = None <-> ~ course_name_exists n d.
Proof.
  unfold select_course_by_name, course_name_exists.
  rewrite find_is_none. split.
  - intros H (r & Hr & Hn). specialize (H r Hr).
    apply String.eqb_neq in H. contradiction.
  - intros H r Hr. apply String.eqb_neq. intros Hn. apply H. exists r. auto.
Qed.

Lemma instructor_exists_iff (iid : Z) (d : Database) :
  instructor_exists iid d <->
  existsb (fun r => Instructors.instructor_id r =? iid) (instructors d) = true.
Proof.
  unfold instructor_exists. rewrite existsb_exists.
  split; intros (r & Hin & H); exists r; split; auto;
    [apply Z.eqb_eq | apply Z.eqb_eq in H]; assumption.
Qed.

Lemma course_name_exists_iff (n : string) (d : Database) :
  course_name_exists n d <->
  existsb (fun r => String.eqb (Courses.course_name r) n) (courses d) = true.
Proof.
  unfold course_name_exists. rewrite existsb_exists.
  split; intros (r & Hin & H); exists r; split; auto;
    [apply String.eqb_eq | apply String.eqb_eq in H]; assumption.
Qed.

Lemma course_inputs_ok_iff (n : string) (iid : Z) (d : Database) :
  course_inputs_ok n iid d = true <->
  instructor_exists iid d /\ ~ course_name_exists n d.
Proof.
  unfold course_inputs_ok.
  rewrite andb_true_iff, negb_true_iff, instructor_exists_iff,
    course_name_exists_iff, not_true_iff_false.
  reflexivity.
Qed.

Lemma instructor_exists_dec (iid : Z) (d : Database) :
  {instructor_exists iid d} + {~ instructor_exists iid d}.
Proof.
  destruct (existsb (fun r => Instructors.instructor_id r =? iid)
                    (instructors d)) eqn:E.
  - left. apply instructor_exists_iff. exact E.
  - right. intros H. apply instructor_exists_iff in H. congruence.
Qed.

Lemma course_name_exists_dec (n : string) (d : Database) :
  {course_name_exists n d} + {~ course_name_exists n d}.
Proof.
  destruct (existsb (fun r => (Courses.course_name r =? n)%string)
                    (courses d)) eqn:E.
  - left. apply course_name_exists_iff. exact E.
  - right. intros H. apply course_name_exists_iff in H. congruence.
Qed.

(** An instructor that exists has an id that can be bound. *)
Lemma instructor_exists_fits (iid : Z) (d : Database) :
  instructor_exists iid d -> fits iid = true.
Proof. intros (r & _ & <-). apply in_range. Qed.

(** The accepting branch of [add_student]. *)
Lemma add_student_accepts (s : Student.t) (d : Database) :
  person_inputs_ok (Student.age s) (Student.email s) = true ->
  fits (Student.age s) = true ->
  room_for_student d ->
  add_student s d =
  {| log := [Execute INSERT "students"; Commit;
             ShowInfo "Success" "Student added successfully."];
     final := with_students (students d ++ [new_student_row s d])
                (i64 (next_rowid (seq_students d) (student_ids d))) d;
     res := Return tt |}.
Proof.
  unfold person_inputs_ok, room_for_student. intros H Hf Hr.
  apply andb_true_iff in H as [He Ha]. apply Z.ltb_lt in Ha.
  rewrite add_student_eq, He, Hf, Hr.
  destruct (Z.leb_spec (Student.age s) 0) as [Hle|_]; [lia|]. reflexivity.
Qed.

Lemma add_student_rejects (s : Student.t) (d : Database) :
  person_inputs_ok (Student.age s) (Student.email s) = false ->
  exists message,
    add_student s d =
    {| log := [ShowError "Error" message]; final := d; res := Return tt |}.
Proof.
  unfold person_inputs_ok. intros H. rewrite add_student_eq.
  destruct (validate_email (Student.email s)); simpl in *.
  - apply Z.ltb_ge in H.
    destruct (Z.leb_spec (Student.age s) 0) as [_|Hlt]; [|lia].
    eexists. reflexivity.
  - eexists. reflexivity.
Qed.

(** The accepting branch of [add_instructor]. *)
Lemma add_instructor_accepts (i : Instructor.t) (d : Database) :
  person_inputs_ok (Instructor.age i) (Instructor.email i) = true ->
  fits (Instructor.age i) = true ->
  room_for_instructor d ->
  add_instructor i d =
  {| log := [Execute INSERT "instructors"; Commit;
             ShowInfo "Success" "Instructor added successfully."];
     final := with_instructors (instructors d ++ [new_instructor_row i d])
                (i64 (next_rowid (seq_instructors d) (instructor_ids d))) d;
     res := Return tt |}.
Proof.
  unfold person_inputs_ok, room_for_instructor. intros H Hf Hr.
  apply andb_true_iff in H as [He Ha]. apply Z.ltb_lt in Ha.
  rewrite add_instructor_eq, He, Hf, Hr.
  destruct (Z.leb_spec (Instructor.age i) 0) as [Hle|_]; [lia|]. reflexivity.
Qed.

Lemma add_instructor_rejects (i : Instructor.t) (d : Database) :
  person_inputs_ok (Instructor.age i) (Instructor.email i) = false ->
  exists message,
    add_instructor i d =
    {| log := [ShowError "Error" message]; final := d; res := Return tt |}.
Proof.
  unfold person_inputs_ok. intros H. rewrite add_instructor_eq.
  destruct (validate_email (Instructor.email i)); simpl in *.
  - apply Z.ltb_ge in H.
    destruct (Z.leb_spec (Instructor.age i) 0) as [_|Hlt]; [|lia].
    eexists. reflexivity.
  - eexists. reflexivity.
Qed.

(** The accepting branch of [add_course]. *)
Lemma add_course_accepts (c : Course.t) (d : Database) :
  instructor_exists (Course.instructor_id c) d ->
  ~ course_name_exists (Course.course_name c) d ->
  room_for_course d ->
  add_course c d =
  {| log := [Execute SELECT "instructors"; Execute SELECT "courses";
             Execute INSERT "courses"; Commit;
             ShowInfo "Success" "Course added successfully."];
     final := with_courses (courses d ++ [new_course_row c d])
                (i64 (next_rowid (seq_courses d) (course_ids d))) d;
     res := Return tt |}.
Proof.
  intros Hi Hn Hr. pose proof (instructor_exists_fits _ _ Hi) as Hf.
  rewrite add_course_eq, Hf. cbn [negb].
  destruct (select_instructor (i64 (Course.instructor_id c)) d) eqn:Hs.
  - apply select_course_by_name_none in Hn. rewrite Hn.
    unfold room_for_course in Hr. rewrite Hr. reflexivity.
  - apply select_instructor_none in Hs; [contradiction | exact Hf].
Qed.

(** The two ways in which [add_course] refuses with a dialog. *)
Lemma add_course_refusals (c : Course.t) (d : Database) :
  fits (Course.instructor_id c) = true ->
  (~ instructor_exists (Course.instructor_id c) d ->
   add_course c d
   = {| log := [Execute SELECT "instructors";
                ShowError "Error"
                  ("Instructor ID " ++ str (Course.instructor_id c)
                     ++ " does not exist.")];
        final := d; res := Return tt |})
  /\ (instructor_exists (Course.instructor_id c) d ->
      course_name_exists (Course.course_name c) d ->
      add_course c d
      = {| log := [Execute SELECT "instructors"; Execute SELECT "courses";
                   ShowError "Error"
                     ("Course with name '" ++ Course.course_name c
                        ++ "' already exists.")];
           final := d; res := Return tt |}).
Proof.
  intros Hf. rewrite add_course_eq, Hf. cbn [negb]. split.
  - intros Hi. apply (select_instructor_none _ _ Hf) in Hi. rewrite Hi.
    reflexivity.
  - intros Hi Hn.
    destruct (select_instructor (i64 (Course.instructor_id c)) d) eqn:Hs.
    + destruct (select_course_by_name (Course.course_name c) d) eqn:Hc;
        [reflexivity|].
      apply select_course_by_name_none in Hc. contradiction.
    + apply (select_instructor_none _ _ Hf) in Hs. contradiction.
Qed.

(* ================================================================== *)
(** ** Sequences of calls *)
(* ================================================================== *)

Lemma run_preserves (ui : toolkit) (P : Database -> Prop) :
  (forall c d, P d -> P (final (invoke ui c d))) ->
  forall cs d, P d -> P (run ui cs d).
Proof.
  intros Hstep. induction cs as [|c cs IH]; intros d Hd; simpl.
  - exact Hd.
  - apply IH, Hstep, Hd.
Qed.

Lemma reachable_invariant (ui : toolkit) (P : Database -> Prop) :
  P empty_db ->
  (forall c d, P d -> P (final (invoke ui c d))) ->
  forall d, reachable ui d -> P d.
Proof.
  intros H0 Hstep d [cs ->]. apply run_preserves; assumption.
Qed.

(** No call touches [student_courses] but an accepted registration, which
    appends a row. *)
Lemma invoke_student_courses (ui : toolkit) (c : call) (d : Database) :
  student_courses (final (invoke ui c d)) = student_courses d
  \/ exists r, student_courses (final (invoke ui c d))
               = (student_courses d ++ [r])%list.
Proof.
  destruct c; outcome_of_call; try (left; reflexivity).
  all: right; eexists; reflexivity.
Qed.

(* ================================================================== *)
(** ** Registration *)
(* ================================================================== *)

Lemma collide_enrollment (s c : Z) (r : StudentCourses.row) :
  fits s = true -> fits c = true ->
  StudentCourses.collide (enrollment (Some s) (Some c)) r = true <->
  r = enrollment (Some s) (Some c).
Proof.
  intros Hs Hc. unfold StudentCourses.collide, enrollment, stored. simpl.
  destruct r as [[rs|] [rc|]]; simpl;
    try (split; [discriminate | intros H; inversion H]).
  rewrite andb_true_iff, !Z.eqb_eq, (value_i64 s Hs), (value_i64 c Hc).
  split.
  - intros [H1 H2]. f_equal; f_equal; apply int64_eq.
    + rewrite value_i64; auto.
    + rewrite value_i64; auto.
  - intros H. inversion H. rewrite !value_i64; auto.
Qed.

(** For two integers that SQLite can hold, a pair that is already enrolled
    is refused with the duplicate-registration dialog and the table stays as
    it was. *)
Lemma register_student_course_rejects (ui : toolkit) (s c : Z)
      (d : Database) :
  fits s = true -> fits c = true ->
  In (enrollment (Some s) (Some c)) (student_courses d) ->
  register_student_course ui (Some s) (Some c) d =
  {| log := [Execute INSERT "student_courses";
             ShowError "Error"
               "Registration failed. This student is already registered for this course."];
     final := d; res := Return tt |}.
Proof.
  intros Hs Hc Hin. rewrite register_student_course_eq.
  cbn [bindable]. rewrite Hs, Hc. cbn [andb negb].
  assert (He : existsb (StudentCourses.collide (enrollment (Some s) (Some c)))
                       (student_courses d) = true).
  { apply existsb_exists. eexists. split; [exact Hin|].
    apply collide_enrollment; auto. }
  rewrite He. reflexivity.
Qed.


(** C5.  The primary key of [student_courses] does not keep a pair with a
    NULL from being stored again: registering from two empty boxes of the
    [pyqt.py] window, which pass [None] for both ids, succeeds every time,
    with the success dialog, and the table then holds the same row twice. *)
Theorem register_student_course_stores_null_pair_twice :
  let d := run PyQt5 [Register_student_course None None] empty_db in
  let o := register_student_course PyQt5 None None d in
  reachable PyQt5 d
  /\ student_courses d = [null_enrollment]
  /\ log o = [Execute INSERT "student_courses"; Commit;
              ShowInfo "Success" "Student registered for course successfully."]
  /\ ~ failed o
  /\ student_courses (final o) = [null_enrollment; null_enrollment]
  /\ ~ NoDup (student_courses (final o)).
Proof.
  intros d o. split; [|split; [|split; [|split; [|split]]]].
  - exists [Register_student_course None None]. reflexivity.
  - reflexivity.
  - reflexivity.
  - intros [H|[e H]]; discriminate H.
  - reflexivity.
  - intros H. inversion H as [|? ? Hnin _]. apply Hnin. left. reflexivity.
Qed.

(* ================================================================== *)
(** ** Courses *)
(* ================================================================== *)

(** C6 as worded fails in two places.  An instructor id outside 64 bits
    matches no instructor, yet [add_course] opens no dialog: the lookup
    cannot bind the id and raises [OverflowError].  And with an existing
    instructor and a free name the course is not inserted when the table has
    handed out its last id: SQLite refuses the INSERT. *)
Lemma add_course_unbound_id_or_full_table :
  let ada := {| Instructors.instructor_id := i64 1; Instructors.name := "Ada";
                Instructors.age := i64 36;
                Instructors.email := "ada@example.org" |} in
  let full := {| students := []; instructors := [ada]; courses := [];
                 student_courses := []; seq_students := i64 0;
                 seq_instructors := i64 1;
                 seq_courses := i64 max_int64 |} in
  let huge := {| Course.course_name := "Algebra";
                 Course.instructor_id := 2 ^ 63 |} in
  let algebra := {| Course.course_name := "Algebra";
                    Course.instructor_id := 1 |} in
  (~ instructor_exists (Course.instructor_id huge) empty_db
   /\ existsb is_error (log (add_course huge empty_db)) = false
   /\ res (add_course huge empty_db) = Raise OverflowError)
  /\ (instructor_exists (Course.instructor_id algebra) full
      /\ ~ course_name_exists (Course.course_name algebra) full
      /\ courses (final (add_course algebra full)) = courses full
      /\ res (add_course algebra full) = Raise OperationalError).
Proof.
  intros ada full huge algebra. split.
  - split; [intros (r & [] & _) | split; reflexivity].
  - split; [|split; [|split; reflexivity]].
    + exists ada. split; [left; reflexivity | reflexivity].
    + intros (r & [] & _).
Qed.

(** C6, as the code has it.  For an instructor id that SQLite can hold,
    [add_course] opens an error dialog and leaves [courses] as it was when
    the id matches no instructor or the name is taken; otherwise, when the
    table can still assign an id, it appends the course under that id. *)
Theorem add_course_checks (c : Course.t) (d : Database) :
  fits (Course.instructor_id c) = true ->
  let o := add_course c d in
  (~ instructor_exists (Course.instructor_id c) d
   \/ course_name_exists (Course.course_name c) d ->
   existsb is_error (log o) = true
   /\ courses (final o) = courses d /\ final o = d)
  /\ (~ (~ instructor_exists (Course.instructor_id c) d
         \/ course_name_exists (Course.course_name c) d) ->
      room_for_course d ->
      ~ failed o
      /\ courses (final o) = (courses d ++ [new_course_row c d])%list).
Proof.
  intros Hf o. subst o.
  destruct (add_course_refusals c d Hf) as [Hno Htaken].
  destruct (instructor_exists_dec (Course.instructor_id c) d) as [Hi|Hi].
  - destruct (course_name_exists_dec (Course.course_name c) d) as [Hn|Hn].
    + rewrite (Htaken Hi Hn). split.
      * intros _. repeat split.
      * intros H. exfalso. apply H. right. exact Hn.
    + split.
      * intros [H|H]; contradiction.
      * intros _ Hr. rewrite (add_course_accepts c d Hi Hn Hr).
        split; [|reflexivity]. intros [H|[e H]]; discriminate H.
  - rewrite (Hno Hi). split.
    + intros _. repeat split.
    + intros H. exfalso. apply H. left. exact Hi.
Qed.

Lemma add_course_checks_witness :
  let ada := {| Instructor.name := "Ada"; Instructor.age := 36;
                Instructor.email := "ada@example.org" |} in
  let algebra := {| Course.course_name := "Algebra";
                    Course.instructor_id := 1 |} in
  let d := run PyQt5 [Add_instructor ada] empty_db in
  courses (final (add_course algebra empty_db)) = courses empty_db
  /\ courses (final (add_course algebra d))
     = (courses d ++ [new_course_row algebra d])%list.
Proof.
  intros ada algebra d. split.
  - apply (proj1 (add_course_checks algebra empty_db eq_refl)).
    left. intros (r & [] & _).
  - apply (proj2 (add_course_checks algebra d eq_refl)); [|reflexivity].
    intros [H | (r & [] & _)]. apply H.
    eexists. split; [left; reflexivity | reflexivity].
Defined.

(* ================================================================== *)
(** ** Failures *)
(* ================================================================== *)

(** C7.  A call that fails, by an error dialog or by an exception, leaves the
    database, and so each of the four tables, as it found it. *)
Theorem failed_call_changes_nothing (ui : toolkit) (c : call)
        (d : Database) :
  failed (invoke ui c d) ->
  final (invoke ui c d) = d /\ same_tables d (final (invoke ui c d)).
Proof.
  intros Hf.
  assert (H : final (invoke ui c d) = d);
    [|rewrite H; repeat split; reflexivity].
  revert Hf.
  destruct c; outcome_of_call; try (intros _; reflexivity);
    intros [H|[e H]]; discriminate H.
Qed.

Lemma failed_call_changes_nothing_witness :
  let nobody := {| Student.name := "N"; Student.age := 0;
                   Student.email := "n@example.org" |} in
  let d := run PyQt5 [Register_student_course (Some 1) (Some 1)] empty_db in
  final (invoke PyQt5 (Add_student nobody) d) = d
  /\ final (invoke PyQt5 (Register_student_course (Some 1) (Some 1)) d) = d.
Proof.
  intros nobody d. split.
  - apply (failed_call_changes_nothing PyQt5 (Add_student nobody) d).
    left. reflexivity.
  - apply (failed_call_changes_nothing PyQt5
             (Register_student_course (Some 1) (Some 1)) d).
    left. reflexivity.
Defined.

(* ================================================================== *)
(** ** Students *)
(* ================================================================== *)

Lemma fold_max_ge (seq : Z) (ids : list Z) :
  seq <= fold_right Z.max seq ids
  /\ forall x, In x ids -> x <= fold_right Z.max seq ids.
Proof.
  induction ids as [|i ids [IHs IHx]]; simpl.
  - split; [lia | intros x []].
  - split; [lia|]. intros x [<-|Hx]; [lia|]. specialize (IHx x Hx). lia.
Qed.

(** AUTOINCREMENT hands out an id that no row of the table carries. *)
Lemma next_rowid_fresh (seq : Z) (ids : list Z) :
  ~ In (next_rowid seq ids) ids.
Proof.
  intros H. apply (proj2 (fold_max_ge seq ids)) in H.
  unfold next_rowid in H. lia.
Qed.

Lemma new_student_id_fresh (s : Student.t) (d : Database) :
  room_for_student d ->
  ~ In (Students.student_id (new_student_row s d))
       (map Students.student_id (students d)).
Proof.
  intros Hr Hin. apply (next_rowid_fresh (seq_students d) (student_ids d)).
  apply in_map_iff in Hin as (r & Hid & Hin).
  unfold student_ids. apply in_map_iff. exists r. split; [|exact Hin].
  rewrite Hid. simpl. apply value_i64. exact Hr.
Qed.

Lemma filter_all {A : Type} (f : A -> bool) (l : list A) :
  (forall x, In x l -> f x = true) -> filter f l = l.
Proof.
  induction l as [|a l IH]; intros H; simpl; [reflexivity|].
  rewrite (H a (or_introl eq_refl)), IH; [reflexivity|].
  intros x Hx. apply H. right. exact Hx.
Qed.

(** A DELETE or UPDATE that leaves the rows as they are leaves the
    database as it is. *)
Lemma with_students_same (d : Database) :
  with_students (students d) (seq_students d) d = d.
Proof. destruct d; reflexivity. Qed.

Lemma with_instructors_same (d : Database) :
  with_instructors (instructors d) (seq_instructors d) d = d.
Proof. destruct d; reflexivity. Qed.

Lemma with_courses_same (d : Database) :
  with_courses (courses d) (seq_courses d) d = d.
Proof. destruct d; reflexivity. Qed.

(** Deleting the id of a row just appended under a fresh id gives the
    former rows back. *)
Lemma delete_appended_student (rows : list Students.row) (r : Students.row) :
  ~ In (Students.student_id r) (map Students.student_id rows) ->
  filter (fun x => negb (Students.student_id x =? Students.student_id r))
         (rows ++ [r]) = rows.
Proof.
  intros Hfresh. rewrite filter_app. cbn [filter].
  rewrite Z.eqb_refl. cbn [negb]. rewrite app_nil_r.
  apply filter_all. intros x Hx.
  apply negb_true_iff, Z.eqb_neq. intros Heq. apply Hfresh.
  apply int64_eq in Heq. rewrite <- Heq. apply in_map. exact Hx.
Qed.

(** C9 as worded fails in two places: for an accepted email and a positive
    age outside 64 bits [add_student] raises [OverflowError] and stores
    nothing, and when the table has handed out its last id SQLite refuses
    the INSERT; in both cases [get_students] returns what it returned
    before. *)
Lemma add_student_unbound_age_or_full_table :
  let old := {| Student.name := "Ada"; Student.age := 2 ^ 63;
                Student.email := "ada@example.org" |} in
  let ada := {| Student.name := "Ada"; Student.age := 20;
                Student.email := "ada@example.org" |} in
  let full := {| students := []; instructors := []; courses := [];
                 student_courses := []; seq_students := i64 max_int64;
                 seq_instructors := i64 0; seq_courses := i64 0 |} in
  (validate_email (Student.email old) = true /\ 0 < Student.age old
   /\ res (add_student old empty_db) = Raise OverflowError
   /\ res (get_students (final (add_student old empty_db)))
      = res (get_students empty_db))
  /\ (validate_email (Student.email ada) = true /\ 0 < Student.age ada
      /\ res (add_student ada full) = Raise OperationalError
      /\ res (get_students (final (add_student ada full)))
         = res (get_students full)).
Proof.
  intros old ada full. repeat split.
Qed.

(** C9, as the code has it.  When the table can still assign an id, for a
    student with an accepted email and a positive age within 64 bits,
    [get_students] after [add_student] returns the former list followed by
    one row with the student's name, age and email under an id that no former
    row carries; after [delete_student] of that id no row carries it, and
    [get_students] returns the former list again. *)
Theorem add_student_delete_student_roundtrip (s : Student.t) (d : Database)
        (before : list Students.row) :
  validate_email (Student.email s) = true ->
  0 < Student.age s ->
  Student.age s <= max_int64 ->
  room_for_student d ->
  res (get_students d) = Return before ->
  let r := new_student_row s d in
  let d1 := final (add_student s d) in
  let d2 := final (delete_student (Students.student_id r) d1) in
  Students.name r = Student.name s
  /\ value (Students.age r) = Student.age s
  /\ Students.email r = Student.email s
  /\ ~ In (Students.student_id r) (map Students.student_id before)
  /\ res (get_students d1) = Return (before ++ [r])%list
  /\ (forall after, res (get_students d2) = Return after ->
                    after = before
                    /\ ~ In (Students.student_id r)
                            (map Students.student_id after)).
Proof.
  intros He Ha Hmax Hroom Hb r d1 d2. subst d2 d1.
  cbn [get_students query res] in Hb. injection Hb as <-.
  assert (Hfit : fits (Student.age s) = true).
  { apply fits_bounds. unfold min_int64. lia. }
  pose proof (new_student_id_fresh s d Hroom) as Hfresh. fold r in Hfresh.
  rewrite add_student_accepts;
    [|apply person_inputs_ok_iff; split; assumption | assumption
     | assumption].
  split; [reflexivity|]. split; [apply value_i64, Hfit|].
  split; [reflexivity|]. split; [assumption|]. split; [reflexivity|].
  intros after Hafter. cbn [final] in Hafter.
  rewrite delete_student_eq, bindable_value in Hafter.
  cbn [negb final get_students query res] in Hafter.
  injection Hafter as <-.
  unfold delete_from_students, with_students. cbn [students].
  fold r. rewrite i64_value.
  change (i64 (next_rowid (seq_students d) (student_ids d)))
    with (Students.student_id r).
  rewrite (delete_appended_student (students d) r Hfresh).
  split; [reflexivity | assumption].
Qed.

Lemma add_student_delete_student_roundtrip_witness :
  let ada := {| Student.name := "Ada"; Student.age := 20;
                Student.email := "ada@example.org" |} in
  res (get_students (final (add_student ada empty_db)))
  = Return [{| Students.student_id := i64 1; Students.name := "Ada";
               Students.age := i64 20;
               Students.email := "ada@example.org" |}].
Proof.
  intros ada.
  apply (add_student_delete_student_roundtrip ada empty_db []);
    [reflexivity | reflexivity | discriminate | reflexivity | reflexivity].
Defined.

(** A stored id differs from every [int] that cannot be bound. *)
Lemma stored_id_differs (a : int64) (n : Z) :
  fits n = false -> (a =? n) = false.
Proof.
  intros Hn. apply Z.eqb_neq. intros <-. rewrite in_range in Hn.
  discriminate Hn.
Qed.

(** C10.  [delete_student] removes from [students] exactly the rows with the
    given id and leaves [instructors], [courses] and [student_courses] as
    they were: the enrollments of the deleted student stay. *)
Theorem delete_student_frame (student_id : Z) (d : Database) :
  let d' := final (delete_student student_id d) in
  (forall r, In r (students d') <->
             In r (students d)
             /\ value (Students.student_id r) <> student_id)
  /\ students d'
     = filter (fun r => negb (Students.student_id r =? student_id))
              (students d)
  /\ instructors d' = instructors d
  /\ courses d' = courses d
  /\ student_courses d' = student_courses d
  /\ (forall e, In e (student_courses d) ->
                option_map value (StudentCourses.student_id e)
                = Some student_id ->
                In e (student_courses d')).
Proof.
  intros d'. subst d'.
  assert (Hs : students (final (delete_student student_id d))
               = filter (fun r => negb (Students.student_id r =? student_id))
                        (students d)).
  { rewrite delete_student_eq. destruct (fits student_id) eqn:Hf.
    - cbn [negb final]. unfold delete_from_students, with_students.
      cbn [students]. rewrite (value_i64 _ Hf). reflexivity.
    - cbn [negb final]. symmetry. apply filter_all. intros r _.
      rewrite stored_id_differs by assumption. reflexivity. }
  split; [|split; [exact Hs|]].
  - intros r. rewrite Hs, filter_In, negb_true_iff, Z.eqb_neq. reflexivity.
  - rewrite delete_student_eq. destruct (fits student_id);
      cbn [negb final]; repeat split; auto.
Qed.

Lemma delete_student_frame_witness :
  let ada := {| Student.name := "Ada"; Student.age := 20;
                Student.email := "ada@example.org" |} in
  let d := run PyQt5 [Add_student ada;
                      Register_student_course (Some 1) (Some 7)]
               empty_db in
  In (enrollment (Some 1) (Some 7))
     (student_courses (final (delete_student 1 d))).
Proof.
  intros ada d.
  apply (delete_student_frame 1 d); [left; reflexivity | reflexivity].
Defined.

(** A dangling enrollment: the student is gone, the pair remains. *)
Example delete_student_leaves_enrollment :
  let ada := {| Student.name := "Ada"; Student.age := 20;
                Student.email := "ada@example.org" |} in
  let d := run PyQt5 [Add_student ada;
                      Register_student_course (Some 1) (Some 7);
                      Delete_student 1] empty_db in
  students d = []
  /\ student_courses d = [enrollment (Some 1) (Some 7)].
Proof. split; reflexivity. Qed.

(* ================================================================== *)
(** ** The invariants of the data model, call by call *)
(* ================================================================== *)

Lemma NoDup_snoc {A : Type} (l : list A) (x : A) :
  NoDup l -> ~ In x l -> NoDup (l ++ [x]).
Proof.
  intros Hl Hx. apply NoDup_app; [assumption | repeat constructor; auto |].
  intros a Ha [<-|[]]. contradiction.
Qed.

(** Dropping rows of [courses] keeps the names of the rest distinct. *)
Lemma course_names_of_filter (keep : Courses.row -> bool)
      (rows : list Courses.row) :
  NoDup (map Courses.course_name rows) ->
  NoDup (map Courses.course_name (filter keep rows)).
Proof.
  induction rows as [|r rows IH]; simpl; intros H; [constructor|].
  apply NoDup_cons_iff in H as [Hfirst Hrest].
  destruct (keep r); simpl; [|exact (IH Hrest)].
  apply NoDup_cons_iff. split; [|exact (IH Hrest)].
  rewrite in_map_iff. intros (r' & Hname & Hr').
  apply filter_In in Hr' as [Hr' _].
  apply Hfirst. rewrite <- Hname. apply in_map. exact Hr'.
Qed.

Lemma Forall_filter_keep {A : Type} (P : A -> Prop) (p : A -> bool)
      (l : list A) :
  Forall P l -> Forall P (filter p l).
Proof.
  rewrite !Forall_forall. intros H x Hx.
  apply filter_In in Hx as [Hx _]. apply H, Hx.
Qed.

(** Every method but [update_course] keeps course names unique. *)
Lemma invoke_keeps_unique_course_names (ui : toolkit) (c : call)
      (d : Database) :
  (forall cid n iid, c <> Update_course cid n iid) ->
  unique_course_names d -> unique_course_names (final (invoke ui c d)).
Proof.
  unfold unique_course_names. intros Hc Hd.
  destruct c as [s|i|c|s c|cid iid|sid|iid|cid|sid n a e|iid n a e|cid n iid];
    [ | | | | | | | | | |exfalso; exact (Hc cid n iid eq_refl)];
    outcome_of_call; cbn [final]; try exact Hd.
  - unfold with_courses. cbn [courses]. rewrite map_app. simpl.
    apply NoDup_snoc; [exact Hd|].
    match goal with
    | H : select_course_by_name _ _ = None |- _ =>
        apply select_course_by_name_none in H; rename H into Hn
    end.
    intros Hin. apply Hn.
    apply in_map_iff in Hin as (row & Hrow & Hrin). exists row. auto.
  - unfold update_courses_instructor, with_courses. cbn [courses].
    rewrite map_map. erewrite map_ext; [exact Hd|].
    intros row. simpl.
    destruct (course_id_is (stored cid) row); reflexivity.
  - unfold delete_from_courses, with_courses. cbn [courses].
    apply course_names_of_filter. exact Hd.
Qed.

(** Every method but [update_student] and [update_instructor] keeps emails
    valid and ages positive. *)
Lemma invoke_keeps_valid_people (ui : toolkit) (c : call) (d : Database) :
  (forall sid n a e, c <> Update_student sid n a e) ->
  (forall iid n a e, c <> Update_instructor iid n a e) ->
  valid_people d -> valid_people (final (invoke ui c d)).
Proof.
  unfold valid_people. intros Hs Hi [Hds Hdi].
  destruct c as [s|i|c|s c|cid iid|sid|iid|cid|sid n a e|iid n a e|cid n iid];
    [ | | | | | | | |exfalso; exact (Hs sid n a e eq_refl)
    |exfalso; exact (Hi iid n a e eq_refl)| ];
    outcome_of_call; cbn [final]; try (split; assumption).
  - unfold with_students. cbn [students instructors].
    split; [|assumption].
    apply Forall_app. split; [assumption|].
    constructor; [|constructor]. unfold new_student_row. cbn [Students.age Students.email].
    repeat match goal with
           | H : negb _ = false |- _ => apply negb_false_iff in H
           end.
    rewrite value_i64 by assumption. split; [assumption|].
    match goal with H : (_ <=? 0) = false |- _ => apply Z.leb_gt in H end.
    assumption.
  - unfold with_instructors. cbn [students instructors].
    split; [assumption|].
    apply Forall_app. split; [assumption|].
    constructor; [|constructor]. unfold new_instructor_row.
    cbn [Instructors.age Instructors.email].
    repeat match goal with
           | H : negb _ = false |- _ => apply negb_false_iff in H
           end.
    rewrite value_i64 by assumption. split; [assumption|].
    match goal with H : (_ <=? 0) = false |- _ => apply Z.leb_gt in H end.
    assumption.
  - unfold delete_from_students, with_students. cbn [students instructors].
    split; [apply Forall_filter_keep|]; assumption.
  - unfold delete_from_instructors, with_instructors.
    cbn [students instructors].
    split; [|apply Forall_filter_keep]; assumption.
Qed.

(** Without the three [update_] methods both invariants hold in every state
    reached from an empty database. *)
Lemma invariants_without_updates (ui : toolkit) (cs : list call) :
  forallb (fun c => negb (is_update c)) cs = true ->
  unique_course_names (run ui cs empty_db)
  /\ valid_people (run ui cs empty_db).
Proof.
  assert (Hgen : forall d,
             forallb (fun c => negb (is_update c)) cs = true ->
             unique_course_names d /\ valid_people d ->
             unique_course_names (run ui cs d) /\ valid_people (run ui cs d)).
  { induction cs as [|c cs IH]; intros d Hcs Hd; simpl; [exact Hd|].
    simpl in Hcs. apply andb_true_iff in Hcs as [Hc Hcs].
    apply IH; [exact Hcs|]. destruct Hd as [Hu Hv]. split.
    - apply invoke_keeps_unique_course_names; [|exact Hu].
      intros cid n iid ->. discriminate Hc.
    - apply invoke_keeps_valid_people; [| |exact Hv].
      + intros sid n a e ->. discriminate Hc.
      + intros iid n a e ->. discriminate Hc. }
  intros Hcs. apply Hgen; [exact Hcs|].
  split; [constructor | split; constructor].
Qed.

(* ================================================================== *)
(** ** The [update_] methods *)
(* ================================================================== *)

(** C1.  [update_course] writes the new name without the lookup that
    [add_course] makes: after an instructor, a course Algebra and a course
    Logic are added, renaming the second course to Algebra leaves two rows of
    [courses] with the same name. *)
Theorem update_course_duplicates_course_name (ui : toolkit) :
  let ada := {| Instructor.name := "Ada"; Instructor.age := 36;
                Instructor.email := "ada@example.org" |} in
  let setup := [Add_instructor ada;
                Add_course {| Course.course_name := "Algebra";
                              Course.instructor_id := 1 |};
                Add_course {| Course.course_name := "Logic";
                              Course.instructor_id := 1 |}] in
  let d := run ui (setup ++ [Update_course 2 "Algebra" 1]) empty_db in
  unique_course_names (run ui setup empty_db)
  /\ reachable ui d
  /\ courses d
     = [{| Courses.course_id := i64 1; Courses.course_name := "Algebra";
           Courses.instructor_id := Some (i64 1) |};
        {| Courses.course_id := i64 2; Courses.course_name := "Algebra";
           Courses.instructor_id := Some (i64 1) |}]
  /\ ~ unique_course_names d.
Proof.
  intros ada setup d. split; [|split; [|split]].
  - apply invariants_without_updates. reflexivity.
  - exists (setup ++ [Update_course 2 "Algebra" 1])%list. reflexivity.
  - destruct ui; reflexivity.
  - assert (Hn : map Courses.course_name (courses d) = ["Algebra"; "Algebra"])
      by (destruct ui; reflexivity).
    unfold unique_course_names. rewrite Hn. intros H.
    inversion H as [|? ? Hnin _]. apply Hnin. left. reflexivity.
Qed.

(** C2.  [update_student] writes the new age and email without the checks
    that [add_student] makes: after a valid student is added, an update with
    a non-positive age and an email that [validate_email] rejects is
    stored. *)
Theorem update_student_stores_invalid_row (ui : toolkit) :
  let ada := {| Student.name := "Ada"; Student.age := 20;
                Student.email := "ada@example.org" |} in
  let d := run ui [Add_student ada; Update_student 1 "Ada" (-5) "nobody"]
               empty_db in
  valid_people (run ui [Add_student ada] empty_db)
  /\ reachable ui d
  /\ students d
     = [{| Students.student_id := i64 1; Students.name := "Ada";
           Students.age := i64 (-5); Students.email := "nobody" |}]
  /\ validate_email "nobody" = false
  /\ ~ valid_people d.
Proof.
  intros ada d. split; [|split; [|split; [|split]]].
  - apply invariants_without_updates. reflexivity.
  - exists [Add_student ada; Update_student 1 "Ada" (-5) "nobody"].
    reflexivity.
  - reflexivity.
  - reflexivity.
  - intros [Hs _]. inversion Hs as [|? ? [He _] _]. discriminate He.
Qed.

(** C3.  [update_course_instructor] makes no lookup in [instructors]: with
    one instructor, of id 1, and one course, assigning instructor 99 to the
    course opens no dialog, raises nothing, and rewrites the row. *)
Theorem update_course_instructor_takes_missing_instructor (ui : toolkit) :
  let ada := {| Instructor.name := "Ada"; Instructor.age := 36;
                Instructor.email := "ada@example.org" |} in
  let d := run ui [Add_instructor ada;
                   Add_course {| Course.course_name := "Algebra";
                                 Course.instructor_id := 1 |}] empty_db in
  let o := update_course_instructor (Some 1) (Some 99) d in
  ~ instructor_exists 99 d
  /\ log o = [Execute UPDATE "courses"; Commit]
  /\ ~ failed o
  /\ courses d
     = [{| Courses.course_id := i64 1; Courses.course_name := "Algebra";
           Courses.instructor_id := Some (i64 1) |}]
  /\ courses (final o)
     = [{| Courses.course_id := i64 1; Courses.course_name := "Algebra";
           Courses.instructor_id := Some (i64 99) |}]
  /\ courses (final o) <> courses d.
Proof.
  intros ada d o. split; [|split; [|split; [|split; [|split]]]].
  - rewrite instructor_exists_iff. intros H. discriminate H.
  - reflexivity.
  - intros [H|[e H]]; discriminate H.
  - reflexivity.
  - reflexivity.
  - intros H. discriminate H.
Qed.

(* ================================================================== *)
(** ** Validation before writing *)
(* ================================================================== *)

(** C4 as worded fails on [update_student], which executes its UPDATE with
    an email that the regex rejects and a non-positive age, and on
    [delete_student], which executes its DELETE for an id that no row
    carries. *)
Lemma update_and_delete_write_unvalidated :
  let ada := {| Student.name := "Ada"; Student.age := 20;
                Student.email := "ada@example.org" |} in
  let d := run PyQt5 [Add_student ada] empty_db in
  ~ validated_write UPDATE "students" (person_inputs_ok (-5) "nobody") d
      (update_student 1 "Ada" (-5) "nobody" d)
  /\ ~ validated_write DELETE "students"
        (existsb (fun r => Students.student_id r =? 7) (students d)) d
        (delete_student 7 d).
Proof.
  intros ada d. split; intros [_ H]; destruct (H eq_refl) as [Hw _];
    discriminate Hw.
Qed.

(** C4, as the code has it.  The [add_] methods validate first (the regex
    match and the positive-age check for a student or an instructor, the two
    lookups for a course): on a bad verdict they write nothing; on a good one,
    when the integer they bind fits in 64 bits and the table can still assign
    an id, they perform their single INSERT into their table and commit.  The
    [delete_] methods, for an id that fits in 64 bits, perform their single
    DELETE and commit, with no check.  [register_student_course], for ids it
    can bind, starts with its single INSERT, with no check before it. *)
Theorem add_methods_validate_before_writing (ui : toolkit) :
  (forall s d,
      (person_inputs_ok (Student.age s) (Student.email s) = false ->
       writes (log (add_student s d)) = [] /\ final (add_student s d) = d)
      /\ (fits (Student.age s) = true -> room_for_student d ->
          validated_write INSERT "students"
            (person_inputs_ok (Student.age s) (Student.email s)) d
            (add_student s d)))
  /\ (forall i d,
         (person_inputs_ok (Instructor.age i) (Instructor.email i) = false ->
          writes (log (add_instructor i d)) = []
          /\ final (add_instructor i d) = d)
         /\ (fits (Instructor.age i) = true -> room_for_instructor d ->
             validated_write INSERT "instructors"
               (person_inputs_ok (Instructor.age i) (Instructor.email i)) d
               (add_instructor i d)))
  /\ (forall c d,
         (course_inputs_ok (Course.course_name c) (Course.instructor_id c) d
          = false ->
          writes (log (add_course c d)) = [] /\ final (add_course c d) = d)
         /\ (room_for_course d ->
             validated_write INSERT "courses"
               (course_inputs_ok (Course.course_name c)
                  (Course.instructor_id c) d)
               d (add_course c d)))
  /\ (forall id d,
         fits id = true ->
         log (delete_student id d) = [Execute DELETE "students"; Commit])
  /\ (forall id d,
         fits id = true ->
         log (delete_instructor id d) = [Execute DELETE "instructors"; Commit])
  /\ (forall id d,
         fits id = true ->
         log (delete_course id d) = [Execute DELETE "courses"; Commit])
  /\ (forall s c d,
         bindable s = true -> bindable c = true ->
         exists rest,
           log (register_student_course ui s c d)
           = Execute INSERT "student_courses" :: rest
           /\ writes rest = []).
Proof.
  assert (Hstudent : forall s d,
             person_inputs_ok (Student.age s) (Student.email s) = false ->
             writes (log (add_student s d)) = []
             /\ final (add_student s d) = d).
  { intros s d H. destruct (add_student_rejects s d H) as [m ->].
    split; reflexivity. }
  assert (Hinstructor : forall i d,
             person_inputs_ok (Instructor.age i) (Instructor.email i) = false ->
             writes (log (add_instructor i d)) = []
             /\ final (add_instructor i d) = d).
  { intros i d H. destruct (add_instructor_rejects i d H) as [m ->].
    split; reflexivity. }
  assert (Hcourse : forall c d,
             course_inputs_ok (Course.course_name c) (Course.instructor_id c) d
             = false ->
             writes (log (add_course c d)) = [] /\ final (add_course c d) = d).
  { intros c d H. rewrite add_course_eq.
    destruct (fits (Course.instructor_id c)) eqn:Hf; cbn [negb];
      [|split; reflexivity].
    destruct (select_instructor (i64 (Course.instructor_id c)) d) eqn:Hs;
      [|split; reflexivity].
    destruct (select_course_by_name (Course.course_name c) d) eqn:Hn;
      [split; reflexivity|].
    exfalso. apply not_true_iff_false in H. apply H.
    apply course_inputs_ok_iff. split.
    - destruct (instructor_exists_dec (Course.instructor_id c) d)
        as [Hi|Hi]; [exact Hi|].
      apply (select_instructor_none _ _ Hf) in Hi. congruence.
    - apply select_course_by_name_none. exact Hn. }
  split; [|split; [|split; [|split; [|split; [|split]]]]].
  - intros s d. split; [apply Hstudent|]. intros Hf Hr. split.
    + intros Hok. rewrite (add_student_accepts s d Hok Hf Hr).
      exists [], [ShowInfo "Success" "Student added successfully."].
      repeat split.
    + apply Hstudent.
  - intros i d. split; [apply Hinstructor|]. intros Hf Hr. split.
    + intros Hok. rewrite (add_instructor_accepts i d Hok Hf Hr).
      exists [], [ShowInfo "Success" "Instructor added successfully."].
      repeat split.
    + apply Hinstructor.
  - intros c d. split; [apply Hcourse|]. intros Hr. split.
    + intros Hok. apply course_inputs_ok_iff in Hok as [Hi Hn].
      rewrite (add_course_accepts c d Hi Hn Hr).
      exists [Execute SELECT "instructors"; Execute SELECT "courses"],
        [ShowInfo "Success" "Course added successfully."].
      repeat split.
    + apply Hcourse.
  - intros id d Hf. rewrite delete_student_eq, Hf. reflexivity.
  - intros id d Hf. rewrite delete_instructor_eq, Hf. reflexivity.
  - intros id d Hf. rewrite delete_course_eq, Hf. reflexivity.
  - intros s c d Hs Hc. rewrite register_student_course_eq, Hs, Hc.
    cbn [andb negb].
    destruct (existsb (StudentCourses.collide (enrollment s c))
                      (student_courses d)).
    + eexists. split; reflexivity.
    + eexists. split; [reflexivity|]. destruct ui; reflexivity.
Qed.

Lemma add_methods_validate_before_writing_witness :
  let ada := {| Student.name := "Ada"; Student.age := 20;
                Student.email := "ada@example.org" |} in
  let nobody := {| Student.name := "N"; Student.age := 20;
                   Student.email := "nobody" |} in
  one_write_then_commit INSERT "students" (log (add_student ada empty_db))
  /\ writes (log (add_student nobody empty_db)) = [].
Proof.
  intros ada nobody. split.
  - apply (proj2 (proj1 (add_methods_validate_before_writing PyQt5)
                    ada empty_db)); reflexivity.
  - apply (proj1 (proj1 (add_methods_validate_before_writing PyQt5)
                    nobody empty_db)). reflexivity.
Defined.

(* ================================================================== *)
(** ** Primary keys *)
(* ================================================================== *)

Section Keyed.

Context {A : Type} (key : A -> Z).

Lemma sorted_snoc (rows : list A) (r : A) :
  StronglySorted (fun a b => key a < key b) rows ->
  Forall (fun a => key a < key r) rows ->
  StronglySorted (fun a b => key a < key b) (rows ++ [r]).
Proof.
  induction rows as [|a rows IH]; simpl; intros Hs Hlt.
  - repeat constructor.
  - apply StronglySorted_inv in Hs as [Hs Ha].
    apply Forall_cons_iff in Hlt as [Har Hlt].
    constructor; [apply IH; assumption|].
    apply Forall_app. split; [assumption | repeat constructor; assumption].
Qed.

Lemma next_rowid_keyed (seq : Z) (rows : list A) :
  keyed key seq rows -> next_rowid seq (map key rows) = seq + 1.
Proof.
  intros (_ & Hb & _). unfold next_rowid. f_equal.
  induction rows as [|a rows IH]; simpl; [reflexivity|].
  apply Forall_cons_iff in Hb as [Ha Hb]. rewrite (IH Hb). lia.
Qed.

(** An INSERT under the AUTOINCREMENT key. *)
Lemma keyed_insert (seq : Z) (rows : list A) (r : A) :
  keyed key seq rows ->
  key r = next_rowid seq (map key rows) ->
  keyed key (key r) (rows ++ [r]).
Proof.
  intros Hk Hr. rewrite (next_rowid_keyed seq rows Hk) in Hr.
  destruct Hk as (Hs & Hb & H0). split; [|split; [|lia]].
  - apply sorted_snoc; [assumption|].
    apply Forall_impl with (2 := Hb). intros a Ha. lia.
  - apply Forall_app. split.
    + apply Forall_impl with (2 := Hb). intros a Ha. lia.
    + repeat constructor; lia.
Qed.

(** A DELETE. *)
Lemma keyed_delete (seq : Z) (rows : list A) (keep : A -> bool) :
  keyed key seq rows -> keyed key seq (filter keep rows).
Proof.
  intros (Hs & Hb & H0). split; [|split; [|assumption]].
  - clear Hb. induction rows as [|a rows IH]; simpl; [constructor|].
    apply StronglySorted_inv in Hs as [Hs Ha].
    destruct (keep a); [|apply IH; assumption].
    constructor; [apply IH; assumption|].
    apply Forall_filter_keep. assumption.
  - apply Forall_filter_keep. assumption.
Qed.

(** An UPDATE that leaves the key column alone. *)
Lemma keyed_update (seq : Z) (rows : list A) (f : A -> A) :
  (forall a, key (f a) = key a) ->
  keyed key seq rows -> keyed key seq (map f rows).
Proof.
  intros Hf (Hs & Hb & H0). split; [|split; [|assumption]].
  - clear Hb. induction rows as [|a rows IH]; simpl; [constructor|].
    apply StronglySorted_inv in Hs as [Hs Ha].
    constructor; [apply IH; assumption|].
    apply Forall_map. apply Forall_impl with (2 := Ha).
    intros b Hab. rewrite !Hf. assumption.
  - apply Forall_map. apply Forall_impl with (2 := Hb).
    intros a Ha. rewrite Hf. assumption.
Qed.

(** The key identifies the row. *)
Lemma keyed_unique (seq : Z) (rows : list A) (a b : A) :
  keyed key seq rows ->
  In a rows -> In b rows -> key a = key b -> a = b.
Proof.
  intros (Hs & _ & _). induction rows as [|r rows IH]; [intros []|].
  apply StronglySorted_inv in Hs as [Hs Hr].
  rewrite Forall_forall in Hr.
  intros [<-|Ha] [<-|Hb] Hab; auto.
  - specialize (Hr b Hb). lia.
  - specialize (Hr a Ha). lia.
Qed.

End Keyed.

(** Every method keeps the keys of the three keyed tables in order. *)
Lemma invoke_keeps_keys (ui : toolkit) (c : call) (d : Database) :
  keys_ok d -> keys_ok (final (invoke ui c d)).
Proof.
  intros (Hs & Hi & Hc).
  destruct c as [s|i|c|s c|cid iid|sid|iid|cid|sid n a e|iid n a e|cid n iid];
    outcome_of_call; cbn [final]; try exact (conj Hs (conj Hi Hc));
    repeat match goal with
           | H : negb _ = false |- _ => apply negb_false_iff in H
           end.
  - split; [|split; assumption].
    apply (keyed_insert (fun r => value (Students.student_id r))
             (seq_students d) (students d) (new_student_row s d));
      [assumption|].
    apply value_i64. assumption.
  - split; [assumption | split; [|assumption]].
    apply (keyed_insert (fun r => value (Instructors.instructor_id r))
             (seq_instructors d) (instructors d) (new_instructor_row i d));
      [assumption|].
    apply value_i64. assumption.
  - split; [assumption | split; [assumption|]].
    apply (keyed_insert (fun r => value (Courses.course_id r))
             (seq_courses d) (courses d) (new_course_row c d));
      [assumption|].
    apply value_i64. assumption.
  - split; [assumption | split; [assumption|]].
    apply (keyed_update (fun r => value (Courses.course_id r)));
      [|assumption].
    intros r. destruct (course_id_is (stored cid) r); reflexivity.
  - split; [|split; assumption].
    apply (keyed_delete (fun r => value (Students.student_id r))).
    assumption.
  - split; [assumption | split; [|assumption]].
    apply (keyed_delete (fun r => value (Instructors.instructor_id r))).
    assumption.
  - split; [assumption | split; [assumption|]].
    apply (keyed_delete (fun r => value (Courses.course_id r))). assumption.
  - split; [|split; assumption].
    apply (keyed_update (fun r => value (Students.student_id r)));
      [|assumption].
    intros r. destruct (Students.student_id r =? i64 sid); reflexivity.
  - split; [assumption | split; [|assumption]].
    apply (keyed_update (fun r => value (Instructors.instructor_id r)));
      [|assumption].
    intros r. destruct (Instructors.instructor_id r =? i64 iid); reflexivity.
  - split; [assumption | split; [assumption|]].
    apply (keyed_update (fun r => value (Courses.course_id r)));
      [|assumption].
    intros r. destruct (Courses.course_id r =? i64 cid); reflexivity.
Qed.

Lemma empty_db_keys_ok : keys_ok empty_db.
Proof.
  repeat split; try constructor; simpl; lia.
Qed.

Lemma reachable_keys_ok (ui : toolkit) (d : Database) :
  reachable ui d -> keys_ok d.
Proof.
  revert d. apply reachable_invariant.
  - exact empty_db_keys_ok.
  - intros c d. apply invoke_keeps_keys.
Qed.

(** X1.  In every state reached from an empty database the ids of
    [students], of [instructors] and of [courses] are positive and strictly
    increasing in rowid order, so an id names at most one row of its
    table. *)
Theorem reachable_primary_keys (ui : toolkit) (d : Database) :
  reachable ui d ->
  keys_ok d
  /\ (forall a b, In a (students d) -> In b (students d) ->
                  value (Students.student_id a) = value (Students.student_id b)
                  -> a = b)
  /\ (forall a b, In a (instructors d) -> In b (instructors d) ->
                  value (Instructors.instructor_id a)
                  = value (Instructors.instructor_id b) ->
                  a = b)
  /\ (forall a b, In a (courses d) -> In b (courses d) ->
                  value (Courses.course_id a) = value (Courses.course_id b)
                  -> a = b).
Proof.
  intros Hr. pose proof (reachable_keys_ok ui d Hr) as Hk.
  split; [exact Hk|]. destruct Hk as (Hs & Hi & Hc).
  split; [|split]; intros a b.
  - apply (keyed_unique _ _ _ a b Hs).
  - apply (keyed_unique _ _ _ a b Hi).
  - apply (keyed_unique _ _ _ a b Hc).
Qed.

Lemma reachable_primary_keys_witness :
  let ada := {| Student.name := "Ada"; Student.age := 20;
                Student.email := "ada@example.org" |} in
  keys_ok (run PyQt5 [Add_student ada; Delete_student 1; Add_student ada]
               empty_db).
Proof.
  intros ada.
  apply (reachable_primary_keys PyQt5).
  exists [Add_student ada; Delete_student 1; Add_student ada]. reflexivity.
Defined.

Lemma invoke_seq_students_mono (ui : toolkit) (c : call) (d : Database) :
  keys_ok d ->
  value (seq_students d) <= value (seq_students (final (invoke ui c d))).
Proof.
  intros (Hs & _ & _).
  destruct c; outcome_of_call; cbn [final]; try (cbn; lia).
  unfold with_students. cbn [seq_students].
  repeat match goal with
         | H : negb _ = false |- _ => apply negb_false_iff in H
         end.
  rewrite value_i64 by assumption.
  pose proof (proj1 (fold_max_ge (seq_students d) (student_ids d))).
  unfold next_rowid. lia.
Qed.

Lemma run_seq_students_mono (ui : toolkit) (cs : list call) :
  forall d, keys_ok d ->
            value (seq_students d) <= value (seq_students (run ui cs d)).
Proof.
  induction cs as [|c cs IH]; intros d Hk; simpl; [lia|].
  pose proof (invoke_seq_students_mono ui c d Hk).
  specialize (IH (final (invoke ui c d)) (invoke_keeps_keys ui c d Hk)). lia.
Qed.

(** X2.  Student ids are never reused.  From a state reached from an empty
    database, whatever calls follow (deletions included), the next
    [add_student] that is accepted (a valid email, a positive age that fits
    in 64 bits, a table that can still assign an id) appends its row under
    an id greater than every id the table held in that state. *)
Theorem student_ids_never_reused (ui : toolkit) (d : Database)
        (cs : list call) (s : Student.t) :
  reachable ui d ->
  validate_email (Student.email s) = true ->
  0 < Student.age s <= max_int64 ->
  let d1 := run ui cs d in
  room_for_student d1 ->
  students (final (add_student s d1))
  = (students d1 ++ [new_student_row s d1])%list
  /\ forall r, In r (students d) ->
               value (Students.student_id r)
               < value (Students.student_id (new_student_row s d1)).
Proof.
  intros Hr He Ha d1 Hroom. split.
  - rewrite add_student_accepts;
      [reflexivity | apply person_inputs_ok_iff; split; [assumption | lia]
      | apply fits_bounds; unfold min_int64; lia | assumption].
  - intros r Hin.
    destruct (reachable_keys_ok ui d Hr) as ((_ & Hb & _) & _).
    rewrite Forall_forall in Hb. specialize (Hb r Hin).
    pose proof (run_seq_students_mono ui cs d (reachable_keys_ok ui d Hr))
      as Hm.
    fold d1 in Hm.
    pose proof (proj1 (fold_max_ge (seq_students d1) (student_ids d1))).
    unfold new_student_row. cbn [Students.student_id].
    rewrite value_i64 by exact Hroom.
    unfold next_rowid. lia.
Qed.

Lemma student_ids_never_reused_witness :
  let ada := {| Student.name := "Ada"; Student.age := 20;
                Student.email := "ada@example.org" |} in
  let d := run PyQt5 [Add_student ada] empty_db in
  let first := {| Students.student_id := i64 1; Students.name := "Ada";
                  Students.age := i64 20;
                  Students.email := "ada@example.org" |} in
  value (Students.student_id first)
  < value (Students.student_id
             (new_student_row ada (run PyQt5 [Delete_student 1] d))).
Proof.
  intros ada d first.
  apply (student_ids_never_reused PyQt5 d [Delete_student 1] ada);
    [exists [Add_student ada]; reflexivity | reflexivity
    | unfold max_int64; simpl; lia | reflexivity | left; reflexivity].
Defined.

(* ================================================================== *)
(** ** Lookups by name *)
(* ================================================================== *)

(** [fetchone()] after a SELECT with a WHERE clause: the first row, in rowid
    order, that satisfies it. *)
Lemma find_first {A : Type} (p : A -> bool) (rows : list A) (r : A) :
  find p rows = Some r ->
  exists before after,
    rows = (before ++ r :: after)%list
    /\ p r = true /\ Forall (fun x => p x = false) before.
Proof.
  induction rows as [|a rows IH]; simpl; [discriminate|].
  destruct (p a) eqn:Ha.
  - intros H. injection H as <-. exists [], rows. auto.
  - intros H. destruct (IH H) as (before & after & -> & Hr & Hb).
    exists (a :: before), after. repeat split; auto.
Qed.

Lemma find_snoc {A : Type} (p : A -> bool) (rows : list A) (r : A) :
  find p (rows ++ [r]) =
  match find p rows with
  | Some x => Some x
  | None => if p r then Some r else None
  end.
Proof.
  induction rows as [|a rows IH]; simpl; [reflexivity|].
  destruct (p a); [reflexivity | exact IH].
Qed.

(** X3.  [get_instructor_id_by_name] and [get_course_id_by_name] return the
    id of the first row, in rowid order, that carries the name, and [None]
    exactly when no row carries it; they leave the database as it is. *)
Theorem lookups_by_name_return_first_match (n : string) (d : Database) :
  (match returned (get_instructor_id_by_name n d) with
   | Some (Some id) =>
       exists before r after,
         instructors d = (before ++ r :: after)%list
         /\ Instructors.instructor_id r = id
         /\ Instructors.name r = n
         /\ Forall (fun x => Instructors.name x <> n) before
   | Some None => Forall (fun x => Instructors.name x <> n) (instructors d)
   | None => False
   end)
  /\ (match returned (get_course_id_by_name n d) with
      | Some (Some id) =>
          exists before r after,
            courses d = (before ++ r :: after)%list
            /\ Courses.course_id r = id
            /\ Courses.course_name r = n
            /\ Forall (fun x => Courses.course_name x <> n) before
      | Some None => Forall (fun x => Courses.course_name x <> n) (courses d)
      | None => False
      end)
  /\ final (get_instructor_id_by_name n d) = d
  /\ final (get_course_id_by_name n d) = d.
Proof.
  split; [|split; [|split; reflexivity]].
  - cbn. unfold select_instructor_by_name.
    destruct (find (fun r => (Instructors.name r =? n)%string)
                   (instructors d)) as [r|] eqn:Hf; simpl.
    + apply find_first in Hf as (before & after & Hrows & Hr & Hb).
      exists before, r, after. apply String.eqb_eq in Hr.
      repeat split; auto.
      apply Forall_impl with (2 := Hb). intros x Hx.
      apply String.eqb_neq. exact Hx.
    + apply Forall_forall. intros x Hx.
      apply String.eqb_neq. exact (find_none _ _ Hf x Hx).
  - cbn. unfold select_course_by_name.
    destruct (find (fun r => (Courses.course_name r =? n)%string)
                   (courses d)) as [r|] eqn:Hf; simpl.
    + apply find_first in Hf as (before & after & Hrows & Hr & Hb).
      exists before, r, after. apply String.eqb_eq in Hr.
      repeat split; auto.
      apply Forall_impl with (2 := Hb). intros x Hx.
      apply String.eqb_neq. exact Hx.
    + apply Forall_forall. intros x Hx.
      apply String.eqb_neq. exact (find_none _ _ Hf x Hx).
Qed.

Lemma new_instructor_id_fresh (i : Instructor.t) (d : Database) :
  room_for_instructor d ->
  ~ In (Instructors.instructor_id (new_instructor_row i d))
       (map Instructors.instructor_id (instructors d)).
Proof.
  intros Hr Hin.
  apply (next_rowid_fresh (seq_instructors d) (instructor_ids d)).
  apply in_map_iff in Hin as (r & Hid & Hin).
  unfold instructor_ids. apply in_map_iff. exists r. split; [|exact Hin].
  rewrite Hid. simpl. apply value_i64. exact Hr.
Qed.

(** X4.  [add_instructor] and the reads.  For an instructor with an accepted
    email and a positive age that fits in 64 bits, in a table that can still
    assign an id, [get_instructors] afterwards returns the former rows
    followed by the new one, under an id no former row carries.  A name that
    resolved to an instructor before still resolves to that same instructor
    (a namesake is never found by name), and a name that no one carried
    resolves to the new id. *)
Theorem add_instructor_then_read (i : Instructor.t) (d : Database) :
  validate_email (Instructor.email i) = true ->
  0 < Instructor.age i <= max_int64 ->
  room_for_instructor d ->
  let r := new_instructor_row i d in
  let d1 := final (add_instructor i d) in
  returned (get_instructors d1) = Some (instructors d ++ [r])%list
  /\ ~ In (Instructors.instructor_id r)
          (map Instructors.instructor_id (instructors d))
  /\ (forall n id,
         returned (get_instructor_id_by_name n d) = Some (Some id) ->
         returned (get_instructor_id_by_name n d1) = Some (Some id))
  /\ (returned (get_instructor_id_by_name (Instructor.name i) d) = Some None ->
      returned (get_instructor_id_by_name (Instructor.name i) d1)
      = Some (Some (Instructors.instructor_id r))).
Proof.
  intros He Ha Hroom r d1. subst d1.
  rewrite add_instructor_accepts;
    [|apply person_inputs_ok_iff; split; [assumption | lia]
     |apply fits_bounds; unfold min_int64; lia | assumption].
  split; [reflexivity|].
  split; [apply new_instructor_id_fresh; assumption|].
  cbn [get_instructor_id_by_name bind query ret returned res final].
  unfold select_instructor_by_name, with_instructors. cbn [instructors].
  fold r.
  split.
  - intros n id. rewrite find_snoc.
    destruct (find (fun x => (Instructors.name x =? n)%string)
                   (instructors d)); simpl; [auto | discriminate].
  - rewrite find_snoc.
    destruct (find (fun x => (Instructors.name x =? Instructor.name i)%string)
                   (instructors d)); simpl; [discriminate|].
    intros _. subst r. simpl. rewrite String.eqb_refl. reflexivity.
Qed.

Lemma add_instructor_then_read_witness :
  let ada := {| Instructor.name := "Ada"; Instructor.age := 36;
                Instructor.email := "ada@example.org" |} in
  returned (get_instructor_id_by_name "Ada"
              (final (add_instructor ada empty_db)))
  = Some (Some (i64 1)).
Proof.
  intros ada.
  apply (add_instructor_then_read ada empty_db);
    [reflexivity | unfold max_int64; simpl; lia | reflexivity | reflexivity].
Defined.

(** X5.  [add_course] and the reads.  When the instructor exists and the
    name is free, and the table can still assign an id, [get_courses]
    afterwards returns the former rows followed by the new one, and
    [get_course_id_by_name] of the name returns the new id.  When the name
    is taken, the call changes nothing and the name keeps resolving to the
    course that holds it. *)
Theorem add_course_then_read (c : Course.t) (d : Database) :
  instructor_exists (Course.instructor_id c) d ->
  let d1 := final (add_course c d) in
  (~ course_name_exists (Course.course_name c) d ->
   room_for_course d ->
   returned (get_courses d1) = Some (courses d ++ [new_course_row c d])%list
   /\ returned (get_course_id_by_name (Course.course_name c) d1)
      = Some (Some (Courses.course_id (new_course_row c d))))
  /\ (course_name_exists (Course.course_name c) d ->
      d1 = d
      /\ exists r,
          In r (courses d)
          /\ Courses.course_name r = Course.course_name c
          /\ returned (get_course_id_by_name (Course.course_name c) d1)
             = Some (Some (Courses.course_id r))).
Proof.
  intros Hi d1. subst d1. split.
  - intros Hn Hroom.
    rewrite (add_course_accepts c d Hi Hn Hroom).
    split; [reflexivity|].
    cbn [get_course_id_by_name bind query ret returned res final].
    unfold select_course_by_name, with_courses. cbn [courses].
    rewrite find_snoc.
    destruct (find (fun r => (Courses.course_name r =? Course.course_name c)
                             %string) (courses d)) as [r|] eqn:Hf.
    + exfalso. apply Hn. apply find_some in Hf as [Hin Hr].
      exists r. split; [assumption | apply String.eqb_eq; assumption].
    + simpl. rewrite String.eqb_refl. reflexivity.
  - intros Hn.
    rewrite (proj2 (add_course_refusals c d (instructor_exists_fits _ _ Hi))
               Hi Hn).
    split; [reflexivity|]. cbn [final].
    cbn [get_course_id_by_name bind query ret returned res final].
    unfold select_course_by_name.
    destruct (find (fun r => (Courses.course_name r =? Course.course_name c)
                             %string) (courses d)) as [r|] eqn:Hf.
    + exists r. apply find_some in Hf as [Hin Hr].
      apply String.eqb_eq in Hr. auto.
    + exfalso. destruct Hn as (r & Hin & Hr).
      pose proof (find_none _ _ Hf r Hin) as Hx. simpl in Hx.
      apply String.eqb_neq in Hx. contradiction.
Qed.

Lemma add_course_then_read_witness :
  let ada := {| Instructor.name := "Ada"; Instructor.age := 36;
                Instructor.email := "ada@example.org" |} in
  let algebra := {| Course.course_name := "Algebra";
                    Course.instructor_id := 1 |} in
  let d := run PyQt5 [Add_instructor ada] empty_db in
  returned (get_course_id_by_name "Algebra" (final (add_course algebra d)))
  = Some (Some (i64 1)).
Proof.
  intros ada algebra d.
  apply (proj1 (add_course_then_read algebra d
                  (ex_intro _ _ (conj (or_introl eq_refl) eq_refl))));
    [intros (r & [] & _) | reflexivity].
Defined.

(* ================================================================== *)
(** ** Deletions *)
(* ================================================================== *)

(** What the three deletions leave in their table, for every [int]: an id
    that cannot be bound is the id of no row. *)
Lemma delete_instructor_rows (instructor_id : Z) (d : Database) :
  let d' := final (delete_instructor instructor_id d) in
  instructors d'
  = filter (fun r => negb (Instructors.instructor_id r =? instructor_id))
           (instructors d)
  /\ students d' = students d /\ courses d' = courses d
  /\ student_courses d' = student_courses d.
Proof.
  intros d'. subst d'. rewrite delete_instructor_eq.
  destruct (fits instructor_id) eqn:Hf; cbn [negb final].
  - unfold delete_from_instructors, with_instructors.
    cbn [students instructors courses student_courses].
    rewrite (value_i64 _ Hf). repeat split.
  - split; [|repeat split]. symmetry. apply filter_all. intros r _.
    rewrite stored_id_differs by assumption. reflexivity.
Qed.

Lemma delete_course_rows (course_id : Z) (d : Database) :
  let d' := final (delete_course course_id d) in
  courses d'
  = filter (fun r => negb (Courses.course_id r =? course_id)) (courses d)
  /\ students d' = students d /\ instructors d' = instructors d
  /\ student_courses d' = student_courses d.
Proof.
  intros d'. subst d'. rewrite delete_course_eq.
  destruct (fits course_id) eqn:Hf; cbn [negb final].
  - unfold delete_from_courses, with_courses.
    cbn [students instructors courses student_courses].
    rewrite (value_i64 _ Hf). repeat split.
  - split; [|repeat split]. symmetry. apply filter_all. intros r _.
    rewrite stored_id_differs by assumption. reflexivity.
Qed.

(** X6.  [delete_instructor] removes from [instructors] exactly the rows
    with the given id, after which no instructor carries it, and leaves the
    other three tables as they were: a course taught by the deleted
    instructor keeps referring to the id. *)
Theorem delete_instructor_leaves_courses (instructor_id : Z)
        (d : Database) :
  let d' := final (delete_instructor instructor_id d) in
  (forall r, In r (instructors d') <->
             In r (instructors d)
             /\ value (Instructors.instructor_id r) <> instructor_id)
  /\ ~ instructor_exists instructor_id d'
  /\ students d' = students d
  /\ courses d' = courses d
  /\ student_courses d' = student_courses d
  /\ (forall c, In c (courses d) ->
                option_map value (Courses.instructor_id c)
                = Some instructor_id ->
                In c (courses d')
                /\ forall i, In i (instructors d') ->
                             Some (Instructors.instructor_id i)
                             <> Courses.instructor_id c).
Proof.
  intros d'. destruct (delete_instructor_rows instructor_id d)
    as (Hi & Hs & Hc & He).
  fold d' in Hi, Hs, Hc, He.
  assert (Hin : forall r,
             In r (instructors d')
             <-> In r (instructors d)
                 /\ value (Instructors.instructor_id r) <> instructor_id).
  { intros r. rewrite Hi, filter_In, negb_true_iff, Z.eqb_neq. reflexivity. }
  split; [exact Hin|]. split.
  - intros (r & Hr & Hid). apply Hin in Hr. tauto.
  - split; [exact Hs|]. split; [exact Hc|]. split; [exact He|].
    intros c Hcin Hid. split; [rewrite Hc; exact Hcin|].
    intros i Hiin Heq. apply Hin in Hiin as [_ Hne].
    rewrite <- Heq in Hid. simpl in Hid. congruence.
Qed.

(** X7.  [delete_course] removes from [courses] exactly the rows with the
    given id and leaves the other three tables as they were: the enrollments
    in the deleted course stay in [student_courses]. *)
Theorem delete_course_leaves_enrollments (course_id : Z) (d : Database) :
  let d' := final (delete_course course_id d) in
  (forall r, In r (courses d') <->
             In r (courses d) /\ value (Courses.course_id r) <> course_id)
  /\ students d' = students d
  /\ instructors d' = instructors d
  /\ student_courses d' = student_courses d
  /\ (forall e, In e (student_courses d) ->
                option_map value (StudentCourses.course_id e)
                = Some course_id ->
                In e (student_courses d')
                /\ forall c, In c (courses d') ->
                             Some (Courses.course_id c)
                             <> StudentCourses.course_id e).
Proof.
  intros d'. destruct (delete_course_rows course_id d)
    as (Hc & Hs & Hi & He).
  fold d' in Hc, Hs, Hi, He.
  assert (Hin : forall r,
             In r (courses d')
             <-> In r (courses d)
                 /\ value (Courses.course_id r) <> course_id).
  { intros r. rewrite Hc, filter_In, negb_true_iff, Z.eqb_neq. reflexivity. }
  split; [exact Hin|]. split; [exact Hs|]. split; [exact Hi|].
  split; [exact He|].
  intros e Hein Hid. split; [rewrite He; exact Hein|].
  intros c Hcin Heq. apply Hin in Hcin as [_ Hne].
  rewrite <- Heq in Hid. simpl in Hid. congruence.
Qed.

Lemma filter_twice {A : Type} (keep : A -> bool) (rows : list A) :
  filter keep (filter keep rows) = filter keep rows.
Proof.
  apply filter_all. intros x Hx. apply filter_In in Hx. tauto.
Qed.

(** X8.  A deletion of an id that fits in 64 bits and that no row carries
    changes nothing, although the DELETE is executed and committed and no
    dialog opens; for an id outside 64 bits the deletion raises
    [OverflowError] before any statement runs; and deleting the same id a
    second time changes nothing more.  This holds for students, instructors
    and courses alike. *)
Theorem delete_is_idempotent (id : Z) (d : Database) :
  (fits id = true ->
   ((forall r, In r (students d) -> value (Students.student_id r) <> id) ->
    delete_student id d
    = {| log := [Execute DELETE "students"; Commit]; final := d;
         res := Return tt |})
   /\ ((forall r, In r (instructors d) ->
                  value (Instructors.instructor_id r) <> id) ->
       delete_instructor id d
       = {| log := [Execute DELETE "instructors"; Commit]; final := d;
            res := Return tt |})
   /\ ((forall r, In r (courses d) -> value (Courses.course_id r) <> id) ->
       delete_course id d
       = {| log := [Execute DELETE "courses"; Commit]; final := d;
            res := Return tt |}))
  /\ (fits id = false ->
      delete_student id d
      = {| log := []; final := d; res := Raise OverflowError |}
      /\ delete_instructor id d
         = {| log := []; final := d; res := Raise OverflowError |}
      /\ delete_course id d
         = {| log := []; final := d; res := Raise OverflowError |})
  /\ final (delete_student id (final (delete_student id d)))
     = final (delete_student id d)
  /\ final (delete_instructor id (final (delete_instructor id d)))
     = final (delete_instructor id d)
  /\ final (delete_course id (final (delete_course id d)))
     = final (delete_course id d).
Proof.
  split; [|split; [|split; [|split]]].
  - intros Hf. rewrite delete_student_eq, delete_instructor_eq,
      delete_course_eq, Hf. cbn [negb].
    split; [|split]; intros H; f_equal.
    + unfold delete_from_students.
      rewrite filter_all; [apply with_students_same|].
      intros x Hx. rewrite (value_i64 _ Hf).
      apply negb_true_iff, Z.eqb_neq, H, Hx.
    + unfold delete_from_instructors.
      rewrite filter_all; [apply with_instructors_same|].
      intros x Hx. rewrite (value_i64 _ Hf).
      apply negb_true_iff, Z.eqb_neq, H, Hx.
    + unfold delete_from_courses.
      rewrite filter_all; [apply with_courses_same|].
      intros x Hx. rewrite (value_i64 _ Hf).
      apply negb_true_iff, Z.eqb_neq, H, Hx.
  - intros Hf. rewrite delete_student_eq, delete_instructor_eq,
      delete_course_eq, Hf. repeat split.
  - rewrite !delete_student_eq. destruct (fits id); cbn [negb final];
      [|reflexivity].
    unfold delete_from_students, with_students. cbn [students].
    rewrite filter_twice. reflexivity.
  - rewrite !delete_instructor_eq. destruct (fits id); cbn [negb final];
      [|reflexivity].
    unfold delete_from_instructors, with_instructors. cbn [instructors].
    rewrite filter_twice. reflexivity.
  - rewrite !delete_course_eq. destruct (fits id); cbn [negb final];
      [|reflexivity].
    unfold delete_from_courses, with_courses. cbn [courses].
    rewrite filter_twice. reflexivity.
Qed.

Lemma delete_is_idempotent_witness :
  delete_student 7 empty_db
  = {| log := [Execute DELETE "students"; Commit]; final := empty_db;
       res := Return tt |}
  /\ res (delete_student (2 ^ 63) empty_db) = Raise OverflowError.
Proof.
  split.
  - apply (proj1 (proj1 (delete_is_idempotent 7 empty_db) eq_refl)).
    intros r [].
  - rewrite (proj1 (proj1 (proj2 (delete_is_idempotent (2 ^ 63) empty_db))
                      eq_refl)).
    reflexivity.
Defined.

(* ================================================================== *)
(** ** Updates *)
(* ================================================================== *)

(** X9.  When the age and the id fit in 64 bits, [update_student] rewrites
    the name, age and email of the rows with the given id and nothing else:
    ids and row order stay, rows with another id stay as they are, the other
    tables stay as they are, and when no row carries the id the database is
    left unchanged, without any dialog.  When the age or the id does not
    fit, the call raises [OverflowError] before any statement runs and the
    database stays as it is. *)
Theorem update_student_touches_one_id (student_id : Z) (name : string)
        (age : Z) (email : string) (d : Database) :
  let o := update_student student_id name age email d in
  let updated := {| Students.student_id := i64 student_id;
                    Students.name := name;
                    Students.age := i64 age; Students.email := email |} in
  (fits age = true -> fits student_id = true ->
   map Students.student_id (students (final o))
   = map Students.student_id (students d)
   /\ (forall r, In r (students (final o)) <->
                 (In r (students d)
                  /\ value (Students.student_id r) <> student_id)
                 \/ (r = updated
                     /\ exists r0, In r0 (students d)
                                   /\ value (Students.student_id r0)
                                      = student_id))
   /\ instructors (final o) = instructors d
   /\ courses (final o) = courses d
   /\ student_courses (final o) = student_courses d
   /\ log o = [Execute UPDATE "students"; Commit]
   /\ res o = Return tt
   /\ ((forall r, In r (students d) ->
                  value (Students.student_id r) <> student_id) ->
       final o = d))
  /\ (fits age && fits student_id = false ->
      o = {| log := []; final := d; res := Raise OverflowError |}).
Proof.
  intros o updated. subst o. rewrite update_student_eq. split.
  - intros Ha Hi. rewrite Ha, Hi. cbn [andb negb final log res].
    unfold update_students, with_students.
    cbn [students instructors courses student_courses].
    rewrite (value_i64 _ Hi).
    split; [|split; [|repeat split]].
    + rewrite map_map. apply map_ext. intros r.
      destruct (Students.student_id r =? student_id); reflexivity.
    + intros r. rewrite in_map_iff. split.
      * intros (r0 & Hr & Hin).
        destruct (Z.eqb_spec (Students.student_id r0) student_id) as [He|Hn].
        -- right. split; [|exists r0; auto].
           subst r updated. f_equal. apply int64_eq.
           rewrite (value_i64 _ Hi). exact He.
        -- left. subst r. auto.
      * intros [[Hin Hn] | [-> (r0 & Hin & He)]].
        -- exists r. split; [|assumption].
           apply Z.eqb_neq in Hn. rewrite Hn. reflexivity.
        -- exists r0. split; [|assumption].
           rewrite He, Z.eqb_refl. subst updated. f_equal.
           apply int64_eq. rewrite (value_i64 _ Hi). exact He.
    + intros H.
      replace (map _ (students d)) with (students d);
        [apply with_students_same|].
      symmetry. erewrite map_ext_in; [apply map_id|].
      intros r Hr. simpl. apply H, Z.eqb_neq in Hr. rewrite Hr. reflexivity.
  - intros H. rewrite H. reflexivity.
Qed.

Lemma update_student_touches_one_id_witness :
  final (update_student 3 "Ada" 20 "ada@example.org" empty_db) = empty_db
  /\ res (update_student 3 "Ada" (2 ^ 63) "ada@example.org" empty_db)
     = Raise OverflowError.
Proof.
  split.
  - apply (proj1 (update_student_touches_one_id 3 "Ada" 20 "ada@example.org"
                    empty_db) eq_refl eq_refl).
    intros r [].
  - rewrite (proj2 (update_student_touches_one_id 3 "Ada" (2 ^ 63)
                      "ada@example.org" empty_db) eq_refl).
    reflexivity.
Defined.

(** X10.  Two [update_student] calls on the same id leave what the second
    alone leaves, provided the age of the second fits in 64 bits (else the
    second raises and the first one's row stays); two calls on different
    ids leave the same database in either order. *)
Theorem update_student_overwrites_and_commutes (d : Database)
        (id1 id2 : Z) (n1 n2 : string) (a1 a2 : Z) (e1 e2 : string) :
  (fits a2 = true ->
   final (update_student id1 n2 a2 e2 (final (update_student id1 n1 a1 e1 d)))
   = final (update_student id1 n2 a2 e2 d))
  /\ (id1 <> id2 ->
      final (update_student id2 n2 a2 e2
               (final (update_student id1 n1 a1 e1 d)))
      = final (update_student id1 n1 a1 e1
                 (final (update_student id2 n2 a2 e2 d)))).
Proof.
  rewrite !update_student_eq. split.
  - intros H2. rewrite H2. cbn [andb].
    destruct (fits id1) eqn:Hi; cbn [andb negb final];
      [|rewrite andb_false_r; reflexivity].
    rewrite andb_true_r. destruct (fits a1); cbn [negb final];
      [|reflexivity].
    unfold update_students, with_students. cbn [students]. f_equal.
    rewrite map_map. apply map_ext. intros r.
    destruct (Students.student_id r =? i64 id1) eqn:E; simpl; rewrite E;
      reflexivity.
  - intros Hne.
    destruct (fits a1 && fits id1) eqn:H1;
      destruct (fits a2 && fits id2) eqn:H2;
      cbn [negb final]; rewrite ?H1, ?H2; cbn [negb final];
      try reflexivity.
    apply andb_true_iff in H1 as [_ H1], H2 as [_ H2].
    unfold update_students, with_students. cbn [students]. f_equal.
    rewrite !map_map. apply map_ext. intros r.
    destruct (Students.student_id r =? i64 id1) eqn:E1;
      destruct (Students.student_id r =? i64 id2) eqn:E2;
      simpl; rewrite ?E1, ?E2; try reflexivity.
    apply Z.eqb_eq in E1, E2.
    rewrite (value_i64 _ H1) in E1. rewrite (value_i64 _ H2) in E2.
    congruence.
Qed.

Lemma update_student_overwrites_and_commutes_witness :
  let ada := {| Student.name := "Ada"; Student.age := 20;
                Student.email := "ada@example.org" |} in
  let d := run PyQt5 [Add_student ada; Add_student ada] empty_db in
  final (update_student 1 "Bob" 30 "bob@example.org"
           (final (update_student 1 "Eve" 40 "eve@example.org" d)))
  = final (update_student 1 "Bob" 30 "bob@example.org" d)
  /\ final (update_student 2 "Bob" 30 "bob@example.org"
              (final (update_student 1 "Eve" 40 "eve@example.org" d)))
     = final (update_student 1 "Eve" 40 "eve@example.org"
                (final (update_student 2 "Bob" 30 "bob@example.org" d))).
Proof.
  intros ada d. split.
  - apply (proj1 (update_student_overwrites_and_commutes d 1 1 "Eve" "Bob"
                    40 30 "eve@example.org" "bob@example.org")).
    reflexivity.
  - apply (proj2 (update_student_overwrites_and_commutes d 1 2 "Eve" "Bob"
                    40 30 "eve@example.org" "bob@example.org")).
    lia.
Defined.

(** X11.  Editing the student just added: after an accepted [add_student]
    (a valid email, a positive age within 64 bits, a table that can still
    assign an id), [update_student] on the new id with an age that fits in
    64 bits makes [get_students] return the former rows followed by one row
    with the new id and the updated name, age and email. *)
Theorem add_then_update_student (s : Student.t) (d : Database)
        (name : string) (age : Z) (email : string) :
  validate_email (Student.email s) = true ->
  0 < Student.age s <= max_int64 ->
  room_for_student d ->
  fits age = true ->
  let id := Students.student_id (new_student_row s d) in
  let d1 := final (add_student s d) in
  let d2 := final (update_student id name age email d1) in
  returned (get_students d2)
  = Some (students d ++
            [{| Students.student_id := id; Students.name := name;
                Students.age := i64 age; Students.email := email |}])%list.
Proof.
  intros He Ha Hroom Hage id d1 d2. subst d2 d1.
  pose proof (new_student_id_fresh s d Hroom) as Hfresh. fold id in Hfresh.
  rewrite add_student_accepts;
    [|apply person_inputs_ok_iff; split; [assumption | lia]
     |apply fits_bounds; unfold min_int64; lia | assumption].
  cbn [final]. rewrite update_student_eq, Hage, bindable_value.
  cbn [andb negb get_students query returned res final].
  unfold update_students, with_students.
  cbn [students]. fold id. rewrite i64_value. f_equal.
  rewrite map_app. simpl. rewrite Z.eqb_refl. f_equal.
  erewrite map_ext_in; [apply map_id|].
  intros r Hr. simpl.
  destruct (Z.eqb_spec (Students.student_id r) id) as [Heq|Hn];
    [|reflexivity].
  exfalso. apply Hfresh. apply int64_eq in Heq. rewrite <- Heq.
  apply in_map. exact Hr.
Qed.

Lemma add_then_update_student_witness :
  let ada := {| Student.name := "Ada"; Student.age := 20;
                Student.email := "ada@example.org" |} in
  returned (get_students
              (final (update_student 1 "Ada L." 21 "ada@example.com"
                        (final (add_student ada empty_db)))))
  = Some [{| Students.student_id := i64 1; Students.name := "Ada L.";
             Students.age := i64 21; Students.email := "ada@example.com" |}].
Proof.
  intros ada.
  apply (add_then_update_student ada empty_db "Ada L." 21 "ada@example.com");
    [reflexivity | unfold max_int64; simpl; lia | reflexivity | reflexivity].
Defined.

(** X12.  When both arguments can be bound (an [int] within 64 bits, or
    [None]), [update_course_instructor] changes the instructor of the rows
    with the given course id and nothing else: every course keeps its id and
    its name, a course with another id keeps its instructor, the other
    tables stay as they are, no test is made on either id, and [None] as
    instructor is stored as NULL.  When an argument is an [int] outside 64
    bits, the call raises [OverflowError] before any statement runs. *)
Theorem update_course_instructor_touches_one_id
        (course_id instructor_id : option Z) (d : Database) :
  let o := update_course_instructor course_id instructor_id d in
  (bindable course_id = true -> bindable instructor_id = true ->
   map Courses.course_id (courses (final o))
   = map Courses.course_id (courses d)
   /\ map Courses.course_name (courses (final o))
      = map Courses.course_name (courses d)
   /\ (forall r, In r (courses (final o)) ->
                 (In r (courses d)
                  /\ Some (value (Courses.course_id r)) <> course_id)
                 \/ (Some (value (Courses.course_id r)) = course_id
                     /\ Courses.instructor_id r = stored instructor_id))
   /\ students (final o) = students d
   /\ instructors (final o) = instructors d
   /\ student_courses (final o) = student_courses d
   /\ log o = [Execute UPDATE "courses"; Commit]
   /\ res o = Return tt)
  /\ (bindable instructor_id && bindable course_id = false ->
      o = {| log := []; final := d; res := Raise OverflowError |}).
Proof.
  intros o. subst o. rewrite update_course_instructor_eq. split.
  - intros Hc Hi. rewrite Hc, Hi. cbn [andb negb final log res].
    unfold update_courses_instructor, with_courses.
    cbn [students instructors courses student_courses].
    split; [|split; [|split; [|repeat split]]].
    + rewrite map_map. apply map_ext. intros r.
      destruct (course_id_is (stored course_id) r); reflexivity.
    + rewrite map_map. apply map_ext. intros r.
      destruct (course_id_is (stored course_id) r); reflexivity.
    + intros r Hr. apply in_map_iff in Hr as (r0 & <- & Hin).
      destruct course_id as [cid|]; cbn [stored option_map course_id_is].
      * simpl in Hc. rewrite (value_i64 _ Hc).
        destruct (Z.eqb_spec (Courses.course_id r0) cid) as [He|Hn].
        -- right. simpl. split; [congruence | reflexivity].
        -- left. split; [assumption | congruence].
      * left. split; [assumption | discriminate].
  - intros H. rewrite H. reflexivity.
Qed.

Lemma update_course_instructor_touches_one_id_witness :
  let ada := {| Instructor.name := "Ada"; Instructor.age := 36;
                Instructor.email := "ada@example.org" |} in
  let algebra := {| Course.course_name := "Algebra";
                    Course.instructor_id := 1 |} in
  let d := run PyQt5 [Add_instructor ada; Add_course algebra] empty_db in
  courses (final (update_course_instructor (Some 1) None d))
  = [{| Courses.course_id := i64 1; Courses.course_name := "Algebra";
        Courses.instructor_id := None |}]
  /\ log (update_course_instructor (Some 1) None d)
     = [Execute UPDATE "courses"; Commit]
  /\ res (update_course_instructor (Some (2 ^ 63)) None d)
     = Raise OverflowError.
Proof.
  intros ada algebra d. split; [reflexivity|]. split.
  - apply (proj1 (update_course_instructor_touches_one_id (Some 1) None d)
             eq_refl eq_refl).
  - rewrite (proj2 (update_course_instructor_touches_one_id (Some (2 ^ 63))
                      None d) eq_refl).
    reflexivity.
Defined.

(* ================================================================== *)
(** ** Error dialogs *)
(* ================================================================== *)

(** X13.  The checks of [add_student] and [add_instructor] run in a fixed
    order and stop at the first failure: an email that [validate_email]
    rejects is reported whatever the age is, a non-positive age only for an
    accepted email.  In both cases the call consists of that one dialog: no
    statement is executed. *)
Theorem add_person_error_messages (name : string) (age : Z) (email : string)
        (d : Database) :
  let s := {| Student.name := name; Student.age := age;
              Student.email := email |} in
  let i := {| Instructor.name := name; Instructor.age := age;
              Instructor.email := email |} in
  (validate_email email = false ->
   add_student s d
   = {| log := [ShowError "Error" "Invalid email format."]; final := d;
        res := Return tt |}
   /\ add_instructor i d
      = {| log := [ShowError "Error" "Invalid email format."]; final := d;
           res := Return tt |})
  /\ (validate_email email = true -> age <= 0 ->
      add_student s d
      = {| log := [ShowError "Error" "Age must be positive."]; final := d;
           res := Return tt |}
      /\ add_instructor i d
         = {| log := [ShowError "Error" "Age must be positive."]; final := d;
              res := Return tt |}).
Proof.
  intros s i. rewrite add_student_eq, add_instructor_eq. subst s i.
  cbn [Student.email Student.age Instructor.email Instructor.age]. split.
  - intros ->. split; reflexivity.
  - intros -> Hage. apply Z.leb_le in Hage. rewrite Hage.
    split; reflexivity.
Qed.

Lemma add_person_error_messages_witness :
  add_student {| Student.name := "Ada"; Student.age := 0;
                 Student.email := "ada@example.org" |} empty_db
  = {| log := [ShowError "Error" "Age must be positive."]; final := empty_db;
       res := Return tt |}.
Proof.
  apply (add_person_error_messages "Ada" 0 "ada@example.org" empty_db);
    [reflexivity | lia].
Defined.

(** X14.  The lookups of [add_course] run in a fixed order and stop at the
    first failure.  An instructor id outside 64 bits cannot be bound: the
    call raises [OverflowError] before any statement runs and opens no
    dialog.  For an id that fits, a missing instructor is reported, with the
    id in the message, before the course name is looked up at all; a taken
    name is reported only when the instructor exists.  The call then
    consists of its lookups and that one dialog. *)
Theorem add_course_error_messages (c : Course.t) (d : Database) :
  (fits (Course.instructor_id c) = false ->
   add_course c d = {| log := []; final := d; res := Raise OverflowError |})
  /\ (fits (Course.instructor_id c) = true ->
      ~ instructor_exists (Course.instructor_id c) d ->
      add_course c d
      = {| log := [Execute SELECT "instructors";
                   ShowError "Error"
                     ("Instructor ID " ++ str (Course.instructor_id c)
                        ++ " does not exist.")];
           final := d; res := Return tt |})
  /\ (instructor_exists (Course.instructor_id c) d ->
      course_name_exists (Course.course_name c) d ->
      add_course c d
      = {| log := [Execute SELECT "instructors"; Execute SELECT "courses";
                   ShowError "Error"
                     ("Course with name '" ++ Course.course_name c
                        ++ "' already exists.")];
           final := d; res := Return tt |}).
Proof.
  split; [|split].
  - intros Hf. rewrite add_course_eq, Hf. reflexivity.
  - intros Hf. exact (proj1 (add_course_refusals c d Hf)).
  - intros Hi.
    exact (proj2 (add_course_refusals c d (instructor_exists_fits _ _ Hi))
             Hi).
Qed.

Lemma add_course_error_messages_witness :
  add_course {| Course.course_name := "Algebra"; Course.instructor_id := 7 |}
             empty_db
  = {| log := [Execute SELECT "instructors";
               ShowError "Error" "Instructor ID 7 does not exist."];
       final := empty_db; res := Return tt |}
  /\ add_course {| Course.course_name := "Algebra";
                   Course.instructor_id := 2 ^ 63 |} empty_db
     = {| log := []; final := empty_db; res := Raise OverflowError |}.
Proof.
  split.
  - apply (proj1 (proj2 (add_course_error_messages
                           {| Course.course_name := "Algebra";
                              Course.instructor_id := 7 |} empty_db)));
      [reflexivity | intros (r & [] & _)].
  - apply (proj1 (add_course_error_messages
                    {| Course.course_name := "Algebra";
                       Course.instructor_id := 2 ^ 63 |} empty_db)).
    reflexivity.
Defined.

(* ================================================================== *)
(** ** Statements and commits *)
(* ================================================================== *)

Ltac raises_or_errs H :=
  exfalso; apply H;
  first [left; reflexivity | right; eexists; reflexivity].

Ltac commit_case :=
  cbn [log res final];
  split; [|split; [simpl; lia | split]];
  [ first [ split;
            [ let H := fresh in
              let e := fresh in
              intros _ [H|[e H]]; [simpl in H|]; discriminate H
            | intros _; simpl; tauto ]
          | split;
            [ let H := fresh in
              intros H; simpl in H; exfalso; intuition discriminate
            | let H := fresh in intros H; raises_or_errs H ] ]
  | first [ intros _; reflexivity
          | let H := fresh in intros H; raises_or_errs H ]
  | let e := fresh in
    let H := fresh in
    intros e H;
    first [ discriminate H
          | injection H as <-; split;
            [ reflexivity
            | first [left; split; reflexivity | right; split; reflexivity] ] ]
  ].

(** X15.  Every writing method executes at most one writing statement per
    call, commits exactly when the call does not fail, and in that case has
    executed exactly its own statement on its own table.  A call ends in an
    exception in two cases only, and then leaves the tables as they were:
    [OverflowError] when an [int] it binds is outside 64 bits, before any
    statement runs, and [OperationalError] when the table of an INSERT can
    assign no further id. *)
Theorem commit_iff_success (ui : toolkit) (c : call) (d : Database) :
  let o := invoke ui c d in
  (In Commit (log o) <-> ~ failed o)
  /\ (List.length (writes (log o)) <= 1)%nat
  /\ (~ failed o -> writes (log o) = [statement_of c])
  /\ (forall e, res o = Raise e ->
                final o = d
                /\ (e = OverflowError /\ log o = []
                    \/ e = OperationalError
                       /\ writes (log o) = [statement_of c])).
Proof.
  intros o. subst o.
  destruct c as [s|i|c|s c|cid iid|sid|iid|cid|sid n a e|iid n a e|cid n iid];
    outcome_of_call; cbn [statement_of]; commit_case.
Qed.

(* ================================================================== *)
(** ** Enrollments *)
(* ================================================================== *)




(** X17.  No method removes an enrollment: a pair that is in
    [student_courses] stays there through every sequence of calls, also when
    its student or its course is deleted. *)
Theorem enrollments_are_permanent (ui : toolkit) (cs : list call)
        (d : Database) (e : StudentCourses.row) :
  In e (student_courses d) -> In e (student_courses (run ui cs d)).
Proof.
  revert d. induction cs as [|c cs IH]; intros d Hin; simpl; [exact Hin|].
  apply IH.
  destruct (invoke_student_courses ui c d) as [-> | (r & ->)];
    [exact Hin | apply in_or_app; left; exact Hin].
Qed.

Lemma enrollments_are_permanent_witness :
  let d := run PyQt5 [Register_student_course (Some 1) (Some 1)] empty_db in
  In (enrollment (Some 1) (Some 1))
     (student_courses (run PyQt5 [Delete_student 1; Delete_course 1] d)).
Proof.
  intros d.
  apply (enrollments_are_permanent PyQt5 [Delete_student 1; Delete_course 1]).
  left. reflexivity.
Defined.

(* ================================================================== *)
(** ** Invariants along sequences of calls *)
(* ================================================================== *)

(** X18.  From any state with unique course names, every sequence of calls
    without [update_course] leads to a state with unique course names: the
    lookup of [add_course] is enough for the other ten methods. *)
Theorem course_names_stay_unique (ui : toolkit) (cs : list call)
        (d : Database) :
  (forall c, In c cs -> forall cid n iid, c <> Update_course cid n iid) ->
  unique_course_names d -> unique_course_names (run ui cs d).
Proof.
  revert d. induction cs as [|c cs IH]; intros d Hcs Hd; simpl; [exact Hd|].
  apply IH.
  - intros c' Hc'. apply Hcs. right. exact Hc'.
  - apply invoke_keeps_unique_course_names; [|exact Hd].
    apply Hcs. left. reflexivity.
Qed.

Lemma course_names_stay_unique_witness :
  let ada := {| Instructor.name := "Ada"; Instructor.age := 36;
                Instructor.email := "ada@example.org" |} in
  let algebra := {| Course.course_name := "Algebra";
                    Course.instructor_id := 1 |} in
  unique_course_names
    (run PyQt5 [Add_instructor ada; Add_course algebra; Add_course algebra;
                Update_course_instructor (Some 1) (Some 5)] empty_db).
Proof.
  intros ada algebra.
  apply (course_names_stay_unique PyQt5); [|constructor].
  intros c [<-|[<-|[<-|[<-|[]]]]]; discriminate.
Defined.

(** X19.  From any state in which every student and instructor has an
    accepted email and a positive age, every sequence of calls without
    [update_student] and [update_instructor] leads to such a state. *)
Theorem people_stay_valid (ui : toolkit) (cs : list call) (d : Database) :
  (forall c, In c cs ->
             (forall id n a e, c <> Update_student id n a e)
             /\ (forall id n a e, c <> Update_instructor id n a e)) ->
  valid_people d -> valid_people (run ui cs d).
Proof.
  revert d. induction cs as [|c cs IH]; intros d Hcs Hd; simpl; [exact Hd|].
  apply IH.
  - intros c' Hc'. apply Hcs. right. exact Hc'.
  - destruct (Hcs c (or_introl eq_refl)) as [Hs Hi].
    apply invoke_keeps_valid_people; assumption.
Qed.

Lemma people_stay_valid_witness :
  let ada := {| Student.name := "Ada"; Student.age := 20;
                Student.email := "ada@example.org" |} in
  let nobody := {| Student.name := "N"; Student.age := 20;
                   Student.email := "nobody" |} in
  valid_people (run PyQt5 [Add_student ada; Add_student nobody;
                           Delete_student 1] empty_db).
Proof.
  intros ada nobody.
  apply (people_stay_valid PyQt5); [|split; constructor].
  intros c [<-|[<-|[<-|[]]]]; split; discriminate.
Defined.

(* ================================================================== *)
(** ** What an accepted address looks like *)
(* ================================================================== *)

Lemma charsets_in_address_chars (c : ascii) :
  (in_charset local_chars c = true -> in_charset address_chars c = true)
  /\ (in_charset domain_chars c = true -> in_charset address_chars c = true)
  /\ (in_charset letters c = true -> in_charset address_chars c = true).
Proof.
  destruct c as [[] [] [] [] [] [] [] []];
    repeat split; intros H; try reflexivity; discriminate H.
Qed.

Lemma count_occ_outside (cs : charset) (l : list ascii) (x : ascii) :
  in_charset cs x = false ->
  forallb (in_charset cs) l = true ->
  count_occ ascii_dec l x = 0%nat.
Proof.
  intros Hx. induction l as [|a l IH]; simpl; [reflexivity|].
  intros H. apply andb_true_iff in H as [Ha Hl].
  destruct (ascii_dec a x) as [->|_]; [congruence | apply IH, Hl].
Qed.

Lemma email_shape_facts (e : list ascii) :
  email_shape e ->
  count_occ ascii_dec e "@"%char = 1%nat
  /\ (6 <= List.length e)%nat
  /\ forallb (in_charset address_chars) e = true.
Proof.
  intros (l & d & t & -> & Hll & Hl & Hdl & Hd & Htl & Ht).
  split; [|split].
  - rewrite count_occ_app. simpl. rewrite count_occ_app. simpl.
    rewrite (count_occ_outside local_chars l) by (reflexivity || assumption).
    rewrite (count_occ_outside domain_chars d) by (reflexivity || assumption).
    rewrite (count_occ_outside letters t) by (reflexivity || assumption).
    reflexivity.
  - rewrite length_app. simpl. rewrite length_app. simpl. lia.
  - rewrite forallb_app. simpl. rewrite forallb_app. simpl.
    rewrite !andb_true_iff. repeat split.
    + apply forallb_forall. intros c Hc.
      apply (proj1 (charsets_in_address_chars c)).
      exact (proj1 (forallb_forall _ _) Hl c Hc).
    + apply forallb_forall. intros c Hc.
      apply (proj1 (proj2 (charsets_in_address_chars c))).
      exact (proj1 (forallb_forall _ _) Hd c Hc).
    + apply forallb_forall. intros c Hc.
      apply (proj2 (proj2 (charsets_in_address_chars c))).
      exact (proj1 (forallb_forall _ _) Ht c Hc).
Qed.

(** X20.  An address that [validate_email] accepts contains exactly one [@],
    is at least six characters long, and, apart from one optional final newline,
    consists of ASCII letters, digits and the characters [._%+-@] only: in
    particular it contains no space and no non-ASCII character. *)
Theorem validate_email_accepted_chars (e : string) :
  validate_email e = true ->
  count_occ ascii_dec (chars e) "@"%char = 1%nat
  /\ (6 <= List.length (chars e))%nat
  /\ exists body,
      (chars e = body \/ chars e = (body ++ [newline])%list)
      /\ forallb (in_charset address_chars) body = true
      /\ ~ In " "%char body.
Proof.
  intros H. apply match_regex_spec in H.
  assert (Hsp : forall body,
             forallb (in_charset address_chars) body = true ->
             ~ In " "%char body).
  { intros body Hb Hin.
    pose proof (proj1 (forallb_forall _ _) Hb _ Hin) as Hc.
    discriminate Hc. }
  destruct H as [H | (e0 & -> & H)];
    apply email_shape_facts in H as (Hc & Hlen & Hb).
  - split; [exact Hc|]. split; [exact Hlen|].
    exists (chars e). auto.
  - split; [|split].
    + rewrite count_occ_app, Hc. reflexivity.
    + rewrite length_app. simpl. lia.
    + exists e0. auto.
Qed.

Lemma validate_email_accepted_chars_witness :
  count_occ ascii_dec (chars "ada@example.org") "@"%char = 1%nat.
Proof.
  apply (validate_email_accepted_chars "ada@example.org"). reflexivity.
Defined.

(* ================================================================== *)
(** ** The handler [assign_instructor] of [tkinter.py] *)
(* ================================================================== *)

Lemma assign_instructor_done (n cn : string) (g : Gui)
      (ri : Instructors.row) (rc : Courses.row) :
  n <> "" -> cn <> "" ->
  select_instructor_by_name n (db g) = Some ri ->
  select_course_by_name cn (db g) = Some rc ->
  let d' := update_courses_instructor (Some (Instructors.instructor_id ri))
              (Some (Courses.course_id rc)) (db g) in
  assign_instructor n cn g
  = {| gui_log := [Execute SELECT "instructors"; Execute SELECT "courses";
                   Execute UPDATE "courses"; Commit;
                   ShowInfo "Success"
                     ("Instructor " ++ n ++ " assigned to " ++ cn ++ "!");
                   Execute SELECT "courses"];
       gui_final := {| db := d';
                       student_tree := student_tree g;
                       instructor_tree := instructor_tree g;
                       course_tree := courses d' |};
       gui_res := Failed TypeError |}.
Proof.
  intros Hn Hcn Hi Hc d'. subst d'.
  apply String.eqb_neq in Hn, Hcn.
  unfold assign_instructor. rewrite Hn, Hcn.
  unfold gbind, call_db, get_instructor_id_by_name, get_course_id_by_name,
    bind, query, ret.
  cbn [res final log gui_res gui_final gui_log db]. rewrite Hi.
  cbn [option_map res final log gui_res gui_final gui_log db app].
  rewrite Hc.
  cbn [option_map res final log gui_res gui_final gui_log db app].
  rewrite update_course_instructor_eq. cbn [bindable stored option_map].
  rewrite !bindable_value, !i64_value. reflexivity.
Qed.

Lemma assign_instructor_refused (n cn : string) (g : Gui) :
  n = "" \/ cn = ""
  \/ select_instructor_by_name n (db g) = None
  \/ select_course_by_name cn (db g) = None ->
  exists lookups message,
    assign_instructor n cn g
    = {| gui_log := lookups ++ [ShowError "Error" message];
         gui_final := g; gui_res := Done tt |}
    /\ writes lookups = []
    /\ ~ In Commit lookups.
Proof.
  intros H. unfold assign_instructor.
  destruct (String.eqb_spec n "") as [_|Hn].
  { exists [], "Please select an instructor.".
    split; [reflexivity | split; [reflexivity | intros []]]. }
  destruct (String.eqb_spec cn "") as [_|Hcn].
  { exists [], "Please select a course.".
    split; [reflexivity | split; [reflexivity | intros []]]. }
  unfold gbind, call_db, get_instructor_id_by_name, get_course_id_by_name,
    bind, query, ret.
  cbn [res final log gui_res gui_final gui_log db].
  destruct (select_instructor_by_name n (db g)) as [ri|] eqn:Hi.
  - cbn [option_map res final log gui_res gui_final gui_log db app].
    destruct (select_course_by_name cn (db g)) as [rc|] eqn:Hc.
    + exfalso. destruct H as [H|[H|[H|H]]]; congruence.
    + exists [Execute SELECT "instructors"; Execute SELECT "courses"].
      eexists. destruct g. split; [reflexivity|].
      split; [reflexivity | simpl; intuition discriminate].
  - exists [Execute SELECT "instructors"]. eexists. destruct g.
    split; [reflexivity|].
    split; [reflexivity | simpl; intuition discriminate].
Qed.

(** X21.  [assign_instructor] refuses with one error dialog, and leaves the
    database and the three trees as they were, when the instructor box or
    the course box is empty, when no instructor carries the chosen name, or
    when no course carries the chosen name.  Before the dialog it has only
    read. *)
Theorem assign_instructor_refuses (instructor_name course_name : string)
        (g : Gui) :
  instructor_name = "" \/ course_name = ""
  \/ Forall (fun r => Instructors.name r <> instructor_name)
            (instructors (db g))
  \/ Forall (fun r => Courses.course_name r <> course_name)
            (courses (db g)) ->
  let o := assign_instructor instructor_name course_name g in
  gui_final o = g
  /\ gui_res o = Done tt
  /\ exists lookups message,
      gui_log o = (lookups ++ [ShowError "Error" message])%list
      /\ writes lookups = [] /\ ~ In Commit lookups.
Proof.
  intros H o. subst o.
  destruct (assign_instructor_refused instructor_name course_name g)
    as (l & m & -> & Hw & Hc).
  - destruct H as [H|[H|[H|H]]]; auto.
    + right. right. left. unfold select_instructor_by_name.
      destruct (find _ (instructors (db g))) as [r|] eqn:Hf; [|reflexivity].
      apply find_some in Hf as [Hin Hr]. apply String.eqb_eq in Hr.
      rewrite Forall_forall in H. destruct (H r Hin Hr).
    + right. right. right. unfold select_course_by_name.
      destruct (find _ (courses (db g))) as [r|] eqn:Hf; [|reflexivity].
      apply find_some in Hf as [Hin Hr]. apply String.eqb_eq in Hr.
      rewrite Forall_forall in H. destruct (H r Hin Hr).
  - split; [reflexivity|]. split; [reflexivity|]. exists l, m. auto.
Qed.

Lemma assign_instructor_refuses_witness :
  let g := {| db := empty_db; student_tree := []; instructor_tree := [];
              course_tree := [] |} in
  gui_final (assign_instructor "Ada" "Algebra" g) = g.
Proof.
  intros g.
  apply (assign_instructor_refuses "Ada" "Algebra" g).
  right. right. left. constructor.
Defined.

(** X22.  When both names are chosen and found, [assign_instructor] gives
    the first course of that name the id of the first instructor of that
    name, commits, opens the success dialog, and shows in the course tree
    exactly the rows of [courses]; the instructor it stored exists.  The
    handler then ends in a [TypeError], raised by [update_treeview] after
    the tree is filled. *)
Theorem assign_instructor_assigns (instructor_name course_name : string)
        (g : Gui) (instructor_id course_id : int64) :
  instructor_name <> "" -> course_name <> "" ->
  returned (get_instructor_id_by_name instructor_name (db g))
  = Some (Some instructor_id) ->
  returned (get_course_id_by_name course_name (db g))
  = Some (Some course_id) ->
  let o := assign_instructor instructor_name course_name g in
  db (gui_final o)
  = final (update_course_instructor (Some (value course_id))
             (Some (value instructor_id)) (db g))
  /\ instructor_exists instructor_id (db (gui_final o))
  /\ course_tree (gui_final o) = courses (db (gui_final o))
  /\ student_tree (gui_final o) = student_tree g
  /\ instructor_tree (gui_final o) = instructor_tree g
  /\ gui_log o
     = [Execute SELECT "instructors"; Execute SELECT "courses";
        Execute UPDATE "courses"; Commit;
        ShowInfo "Success"
          ("Instructor " ++ instructor_name ++ " assigned to "
             ++ course_name ++ "!");
        Execute SELECT "courses"]
  /\ gui_res o = Failed TypeError.
Proof.
  intros Hn Hcn Hi Hc o. subst o.
  cbn [get_instructor_id_by_name get_course_id_by_name bind query ret
       returned res final] in Hi, Hc.
  destruct (select_instructor_by_name instructor_name (db g))
    as [ri|] eqn:Hsi; [|discriminate Hi].
  destruct (select_course_by_name course_name (db g))
    as [rc|] eqn:Hsc; [|discriminate Hc].
  simpl in Hi, Hc. injection Hi as <-. injection Hc as <-.
  rewrite (assign_instructor_done _ _ g ri rc Hn Hcn Hsi Hsc).
  cbn [gui_final gui_log gui_res db course_tree student_tree
       instructor_tree].
  rewrite update_course_instructor_eq. cbn [bindable stored option_map].
  rewrite !bindable_value, !i64_value. cbn [andb negb final].
  repeat split.
  apply find_some in Hsi as [Hin _].
  exists ri. split; [exact Hin | reflexivity].
Qed.

Lemma assign_instructor_assigns_witness :
  let ada := {| Instructor.name := "Ada"; Instructor.age := 36;
                Instructor.email := "ada@example.org" |} in
  let algebra := {| Course.course_name := "Algebra";
                    Course.instructor_id := 1 |} in
  let g := {| db := run Tkinter [Add_instructor ada; Add_course algebra;
                                 Add_instructor ada; Delete_instructor 1]
                        empty_db;
              student_tree := []; instructor_tree := [];
              course_tree := [] |} in
  gui_res (assign_instructor "Ada" "Algebra" g) = Failed TypeError.
Proof.
  intros ada algebra g.
  apply (assign_instructor_assigns "Ada" "Algebra" g (i64 2) (i64 1));
    [discriminate | discriminate | reflexivity | reflexivity].
Defined.

(** X23.  [assign_instructor] never stores the id of a missing instructor:
    after the handler, whatever the two boxes held, every row of [courses]
    is a row that was there before or refers to an instructor that
    exists. *)
Theorem assign_instructor_never_dangles (instructor_name course_name : string)
        (g : Gui) (r : Courses.row) :
  let o := assign_instructor instructor_name course_name g in
  In r (courses (db (gui_final o))) ->
  In r (courses (db g))
  \/ exists id : int64,
      Courses.instructor_id r = Some id
      /\ instructor_exists id (db (gui_final o)).
Proof.
  intros o. subst o.
  destruct (String.eqb_spec instructor_name "") as [Hn|Hn];
    [destruct (assign_instructor_refused instructor_name course_name g)
        as (l & m & -> & _); auto|].
  destruct (String.eqb_spec course_name "") as [Hcn|Hcn];
    [destruct (assign_instructor_refused instructor_name course_name g)
        as (l & m & -> & _); auto|].
  destruct (select_instructor_by_name instructor_name (db g))
    as [ri|] eqn:Hsi;
    [|destruct (assign_instructor_refused instructor_name course_name g)
        as (l & m & -> & _); auto].
  destruct (select_course_by_name course_name (db g))
    as [rc|] eqn:Hsc;
    [|destruct (assign_instructor_refused instructor_name course_name g)
        as (l & m & -> & _); auto 6].
  rewrite (assign_instructor_done _ _ g ri rc Hn Hcn Hsi Hsc).
  cbn [gui_final db]. unfold update_courses_instructor, with_courses.
  cbn [courses instructors]. intros Hr.
  apply in_map_iff in Hr as (r0 & <- & Hin).
  destruct (course_id_is (Some (Courses.course_id rc)) r0); [|auto].
  right. exists (Instructors.instructor_id ri). split; [reflexivity|].
  apply find_some in Hsi as [Hri _]. exists ri. auto.
Qed.

Lemma assign_instructor_never_dangles_witness :
  let ada := {| Instructor.name := "Ada"; Instructor.age := 36;
                Instructor.email := "ada@example.org" |} in
  let algebra := {| Course.course_name := "Algebra";
                    Course.instructor_id := 1 |} in
  let g := {| db := run Tkinter [Add_instructor ada; Add_course algebra]
                        empty_db;
              student_tree := []; instructor_tree := [];
              course_tree := [] |} in
  let r := {| Courses.course_id := i64 1; Courses.course_name := "Algebra";
              Courses.instructor_id := Some (i64 1) |} in
  In r (courses (db g))
  \/ exists id : int64,
      Courses.instructor_id r = Some id
      /\ instructor_exists id
           (db (gui_final (assign_instructor "Ada" "Algebra" g))).
Proof.
  intros ada algebra g r.
  apply (assign_instructor_never_dangles "Ada" "Algebra" g r).
  left. reflexivity.
Defined.

(** X24.  [load_courses] appends every row of [courses] to the course tree
    without clearing it, so a second call shows every course twice;
    [update_treeview] clears the tree first, so it leaves exactly the rows
    of [courses], and then fails with a [TypeError].  Neither changes the
    database. *)
Theorem course_tree_refresh (g : Gui) :
  let once := gui_final (load_courses g) in
  let twice := gui_final (load_courses once) in
  let fresh := update_treeview g in
  course_tree once = (course_tree g ++ courses (db g))%list
  /\ course_tree twice
     = (course_tree g ++ courses (db g) ++ courses (db g))%list
  /\ gui_res (load_courses g) = Done tt
  /\ db twice = db g
  /\ course_tree (gui_final fresh) = courses (db g)
  /\ db (gui_final fresh) = db g
  /\ gui_res fresh = Failed TypeError.
Proof.
  cbn. rewrite <- app_assoc. repeat split.
Qed.

(* ================================================================== *)
(** ** Updates that keep the invariants *)
(* ================================================================== *)

Lemma renamed_names_unique (cid : Z) (n : string) (iid : int64)
      (rows : list Courses.row) :
  StronglySorted
    (fun a b => value (Courses.course_id a) < value (Courses.course_id b))
    rows ->
  NoDup (map Courses.course_name rows) ->
  (forall r, In r rows -> Courses.course_name r = n ->
             value (Courses.course_id r) = cid) ->
  NoDup (map Courses.course_name
           (map (fun r =>
                   if Courses.course_id r =? cid
                   then {| Courses.course_id := Courses.course_id r;
                           Courses.course_name := n;
                           Courses.instructor_id := Some iid |}
                   else r) rows)).
Proof.
  induction rows as [|a rows IH]; simpl; intros Hs Hnd Hfree; [constructor|].
  apply StronglySorted_inv in Hs as [Hs Ha].
  apply NoDup_cons_iff in Hnd as [Hna Hnd].
  rewrite Forall_forall in Ha.
  apply NoDup_cons_iff. split; [|apply IH; auto].
  rewrite map_map, in_map_iff. intros (r & Hname & Hr).
  specialize (Ha r Hr).
  destruct (Z.eqb_spec (Courses.course_id a) cid) as [Hai|Hai];
    destruct (Z.eqb_spec (Courses.course_id r) cid) as [Hri|Hri];
    simpl in Hname.
  - lia.
  - assert (value (Courses.course_id r) = cid) by (apply Hfree; auto).
    contradiction.
  - assert (value (Courses.course_id a) = cid) by (apply Hfree; auto).
    contradiction.
  - apply Hna. rewrite <- Hname. apply in_map. exact Hr.
Qed.

(** X25.  [update_course] keeps course names unique when the new name is
    carried by no course other than the one updated; when the instructor id
    fits in 64 bits, [get_course_id_by_name] of the new name then returns
    the updated course, if it exists.  (The keys are in order in every state
    reached from an empty database.) *)
Theorem update_course_rename (course_id : Z) (course_name : string)
        (instructor_id : Z) (d : Database) :
  keys_ok d ->
  unique_course_names d ->
  (forall r, In r (courses d) -> Courses.course_name r = course_name ->
             value (Courses.course_id r) = course_id) ->
  let d' := final (update_course course_id course_name instructor_id d) in
  unique_course_names d'
  /\ (fits instructor_id = true ->
      (exists r, In r (courses d)
                 /\ value (Courses.course_id r) = course_id) ->
      returned (get_course_id_by_name course_name d')
      = Some (Some (i64 course_id))).
Proof.
  intros (_ & _ & Hs & _) Hu Hfree d'. subst d'.
  rewrite update_course_eq. split.
  - destruct (fits instructor_id && fits course_id) eqn:Hf;
      cbn [negb final]; [|exact Hu].
    apply andb_true_iff in Hf as [_ Hc].
    unfold unique_course_names, update_courses, with_courses. cbn [courses].
    rewrite (value_i64 _ Hc). apply renamed_names_unique; assumption.
  - intros Hi (r & Hr & Hid).
    assert (Hc : fits course_id = true) by (subst; apply in_range).
    rewrite Hi, Hc. cbn [andb negb final].
    cbn [get_course_id_by_name bind query ret returned res final].
    unfold select_course_by_name, update_courses, with_courses.
    cbn [courses]. rewrite (value_i64 _ Hc). f_equal.
    destruct (find _ (map _ (courses d))) as [x|] eqn:Hf.
    + apply find_some in Hf as [Hx Hname]. apply String.eqb_eq in Hname.
      apply in_map_iff in Hx as (x0 & <- & Hx0).
      destruct (Z.eqb_spec (Courses.course_id x0) course_id) as [He|Hn];
        simpl in *.
      * f_equal. apply int64_eq. rewrite (value_i64 _ Hc). exact He.
      * rewrite (Hfree x0 Hx0 Hname) in Hn. contradiction.
    + exfalso.
      pose proof (find_none _ _ Hf
                    {| Courses.course_id := Courses.course_id r;
                       Courses.course_name := course_name;
                       Courses.instructor_id := Some (i64 instructor_id) |})
        as Hx.
      simpl in Hx. rewrite String.eqb_refl in Hx.
      assert (false = true); [|discriminate].
      symmetry. apply Hx. apply in_map_iff. exists r. split; [|exact Hr].
      rewrite Hid, Z.eqb_refl. reflexivity.
Qed.

Lemma update_course_rename_witness :
  let ada := {| Instructor.name := "Ada"; Instructor.age := 36;
                Instructor.email := "ada@example.org" |} in
  let d := run PyQt5 [Add_instructor ada;
                      Add_course {| Course.course_name := "Algebra";
                                    Course.instructor_id := 1 |};
                      Add_course {| Course.course_name := "Logic";
                                    Course.instructor_id := 1 |}] empty_db in
  unique_course_names (final (update_course 2 "Topology" 1 d))
  /\ returned (get_course_id_by_name "Topology"
                 (final (update_course 2 "Topology" 1 d)))
     = Some (Some (i64 2)).
Proof.
  intros ada d.
  assert (Hk : keys_ok d).
  { subst d. unfold keys_ok, keyed. simpl. unfold next_rowid. simpl.
    repeat split; repeat (once constructor); simpl; lia. }
  assert (Hu : unique_course_names d).
  { subst d. unfold unique_course_names. simpl.
    repeat constructor; simpl; intuition discriminate. }
  assert (Hfree : forall r, In r (courses d) ->
                            Courses.course_name r = "Topology" ->
                            value (Courses.course_id r) = 2).
  { intros r [<-|[<-|[]]]; discriminate. }
  split.
  - apply (update_course_rename 2 "Topology" 1 d Hk Hu Hfree).
  - apply (update_course_rename 2 "Topology" 1 d Hk Hu Hfree);
      [reflexivity|].
    eexists. split; [right; left; reflexivity | reflexivity].
Defined.

(** X26.  [update_student] and [update_instructor] keep every email accepted
    and every age positive when the values they are given are themselves an
    accepted email and a positive age. *)
Theorem valid_updates_keep_people_valid (id : Z) (name : string) (age : Z)
        (email : string) (d : Database) :
  validate_email email = true -> 0 < age ->
  valid_people d ->
  valid_people (final (update_student id name age email d))
  /\ valid_people (final (update_instructor id name age email d)).
Proof.
  intros He Ha [Hs Hi].
  rewrite update_student_eq, update_instructor_eq.
  destruct (fits age && fits id) eqn:Hf; cbn [negb final];
    [|split; split; assumption].
  apply andb_true_iff in Hf as [Hage _].
  unfold valid_people, update_students, update_instructors, with_students,
    with_instructors.
  cbn [students instructors].
  split; (split; [|]); try assumption.
  - apply Forall_map. apply Forall_impl with (2 := Hs). intros r Hr.
    destruct (Students.student_id r =? i64 id); [|exact Hr].
    cbn [Students.age Students.email]. rewrite (value_i64 _ Hage).
    split; assumption.
  - apply Forall_map. apply Forall_impl with (2 := Hi). intros r Hr.
    destruct (Instructors.instructor_id r =? i64 id); [|exact Hr].
    cbn [Instructors.age Instructors.email]. rewrite (value_i64 _ Hage).
    split; assumption.
Qed.

Lemma valid_updates_keep_people_valid_witness :
  let ada := {| Student.name := "Ada"; Student.age := 20;
                Student.email := "ada@example.org" |} in
  let d := run PyQt5 [Add_student ada] empty_db in
  valid_people (final (update_student 1 "Ada" 21 "ada@example.com" d)).
Proof.
  intros ada d.
  apply (valid_updates_keep_people_valid 1 "Ada" 21 "ada@example.com" d).
  - reflexivity.
  - lia.
  - subst d. unfold valid_people. simpl. split; repeat constructor.
Defined.
